(** * Verification of the S3 deployment helper (deployment/s3.py)

    A shallow embedding of [create_bucket], [upload], [upload_file],
    [upload_dir] and [set_bucket_web_config].  The Python functions are
    sequences of calls to an S3 client inside [try ... except ClientError];
    they are embedded in a state-and-exception monad whose state records the
    calls issued to the storage service in order, together with the outcome
    of each, and the lines written with [logging.error].  The libraries the
    script calls ([mimetypes], the S3 service, the local file system) are
    the environment: the first two are section variables, the file system
    is a tree with a working directory. *)

From Stdlib Require Import Ascii String.
From stdpp Require Import base option list strings gmap.

Set Warnings "-register-all".
Open Scope string_scope.
Open Scope list_scope.

(** ** Python strings *)

Module PyStr.

(** The path separator, as a character. *)
Definition sep : Ascii.ascii := "/"%char.

(** [s.startswith(p)] *)
Fixpoint startswith (p s : string) : bool :=
  match p, s with
  | EmptyString, _ => true
  | String a p', String b s' => if Ascii.eqb a b then startswith p' s' else false
  | String _ _, EmptyString => false
  end.

(** [s.endswith(suffix)] *)
Fixpoint endswith (suffix s : string) : bool :=
  if String.eqb suffix s then true
  else match s with
       | EmptyString => false
       | String _ s' => endswith suffix s'
       end.

(** [s[n:]] *)
Fixpoint drop (n : nat) (s : string) : string :=
  match n, s with
  | O, _ => s
  | S n', String _ s' => drop n' s'
  | S _, EmptyString => EmptyString
  end.

(** [s.replace(old, new, 1)]: the leftmost occurrence of [old] is replaced;
    an empty [old] occurs at position 0. *)
Fixpoint replace1 (old new s : string) : string :=
  if startswith old s then new +:+ drop (String.length old) s
  else match s with
       | EmptyString => EmptyString
       | String c s' => String c (replace1 old new s')
       end.

(** [s[0]], which raises [IndexError] on the empty string. *)
Definition first_char (s : string) : option Ascii.ascii :=
  match s with
  | EmptyString => None
  | String c _ => Some c
  end.

(** [s.split("/")] *)
Fixpoint split_sep (s : string) : list string :=
  match s with
  | EmptyString => [EmptyString]
  | String c s' =>
      if Ascii.eqb c sep then EmptyString :: split_sep s'
      else match split_sep s' with
           | [] => [String c EmptyString]
           | w :: ws => String c w :: ws
           end
  end.

(** The string holds a NUL character: the file-system calls of [os]
    refuse such a path with [ValueError]. *)
Fixpoint has_nul (s : string) : bool :=
  match s with
  | EmptyString => false
  | String c s' => Ascii.eqb c Ascii.zero || has_nul s'
  end.

(** Truth value of an [Optional[str]]: [None] and [""] are false. *)
Definition truthy (o : option string) : bool :=
  match o with
  | Some (String _ _) => true
  | _ => false
  end.

End PyStr.

(** ** The local file system *)

Module OsPath.

(** [posixpath.join(a, b)] *)
Definition join (a b : string) : string :=
  if PyStr.startswith "/" b then b
  else if orb (String.eqb a "") (PyStr.endswith "/" a) then a +:+ b
  else a +:+ "/" +:+ b.

(** What [join] puts between its arguments when the second is relative. *)
Definition glue (a : string) : string :=
  if orb (String.eqb a "") (PyStr.endswith "/" a) then "" else "/".

(** A directory tree.  The entries of a directory are kept in the order in
    which [os.scandir] lists them.  [Special] stands for sockets, FIFOs and
    device files.  Symbolic links are not modelled. *)
Inductive node : Type :=
  | File : node
  | Special : node
  | Dir : list (string * node) -> node.

Record filesystem : Type := mkFs {
  fs_root : node;       (* the directory [/] *)
  fs_cwd : string       (* [os.getcwd()], an absolute path *)
}.

Definition is_dir_node (n : node) : bool :=
  match n with Dir _ => true | _ => false end.

Fixpoint lookup_entry (name : string) (es : list (string * node)) : option node :=
  match es with
  | [] => None
  | (n, x) :: es' => if String.eqb n name then Some x else lookup_entry name es'
  end.

(** Path resolution, one component at a time.  The stack holds the
    directories entered so far, innermost first; every component, also an
    empty one or a dot, needs the current node to be a directory. *)
Fixpoint resolve_from (stack : list node) (cur : node) (comps : list string)
  : option node :=
  match comps with
  | [] => Some cur
  | c :: comps' =>
      match cur with
      | Dir es =>
          if orb (String.eqb c "") (String.eqb c ".") then
            resolve_from stack cur comps'
          else if String.eqb c ".." then
            match stack with
            | [] => resolve_from [] cur comps'
            | up :: stack' => resolve_from stack' up comps'
            end
          else
            match lookup_entry c es with
            | Some x => resolve_from (cur :: stack) x comps'
            | None => None
            end
      | _ => None
      end
  end.

Definition resolve (fs : filesystem) (path : string) : option node :=
  if String.eqb path "" then None
  else
    let full := if PyStr.startswith "/" path then path
                else fs_cwd fs +:+ "/" +:+ path in
    if PyStr.has_nul full then None
    else resolve_from [] (fs_root fs) (PyStr.split_sep full).

(** [os.path.isfile] and [os.path.isdir]; both answer [False] where
    [os.stat] fails, the [ValueError] of a NUL character included. *)
Definition isfile (fs : filesystem) (path : string) : bool :=
  match resolve fs path with Some File => true | _ => false end.

Definition isdir (fs : filesystem) (path : string) : bool :=
  match resolve fs path with Some (Dir _) => true | _ => false end.

(** The two name lists [os.walk] builds for one directory. *)
Definition dirnames (es : list (string * node)) : list string :=
  map fst (filter (fun e => is_dir_node (snd e) = true) es).

Definition filenames (es : list (string * node)) : list string :=
  map fst (filter (fun e => is_dir_node (snd e) = false) es).

(** [os.walk(top)], top-down, on the tree found at [top]: the triple of
    the directory itself first, then the walk of each sub-directory in
    listing order.  Anything but a directory yields nothing. *)
Fixpoint walk_node (top : string) (n : node)
  : list (string * list string * list string) :=
  match n with
  | Dir es =>
      (top, dirnames es, filenames es)
        :: (fix subdirs (l : list (string * node))
              : list (string * list string * list string) :=
              match l with
              | [] => []
              | (name, sub) :: l' => walk_node (join top name) sub ++ subdirs l'
              end) es
  | _ => []
  end.

(** [os.walk(top)]: [None] when it raises, which it does with
    [ValueError] on a [top] that holds a NUL character ([os.scandir]
    refuses it and [os.walk] lets everything but [OSError] through); a
    [top] that is missing or not a directory yields nothing. *)
Definition walk (fs : filesystem) (top : string)
  : option (list (string * list string * list string)) :=
  if PyStr.has_nul top then None
  else Some (match resolve fs top with
             | Some n => walk_node top n
             | None => []
             end).

(** The file paths [upload_dir] builds while it iterates over [os.walk],
    in iteration order. *)
Definition walk_paths (fs : filesystem) (top : string) : list string :=
  match walk fs top with
  | Some entries => flat_map (fun '(root, _, files) => map (join root) files) entries
  | None => []
  end.

(** Names as a directory listing returns them: not empty, no separator. *)
Fixpoint has_sep (s : string) : bool :=
  match s with
  | EmptyString => false
  | String c s' => if Ascii.eqb c PyStr.sep then true else has_sep s'
  end.

Definition name_ok (name : string) : bool :=
  negb (String.eqb name "") && negb (has_sep name).

Fixpoint wf_node (n : node) : bool :=
  match n with
  | Dir es =>
      (fix wf_entries (l : list (string * node)) : bool :=
         match l with
         | [] => true
         | (name, sub) :: l' => name_ok name && wf_node sub && wf_entries l'
         end) es
  | _ => true
  end.

Definition wf_fs (fs : filesystem) : bool := wf_node (fs_root fs).

(** The paths of a walk, for the tree itself. *)
Definition node_paths (top : string) (n : node) : list string :=
  flat_map (fun '(root, _, files) => map (join root) files) (walk_node top n).

(** The number of entries below a directory that are not directories. *)
Fixpoint count_files (n : node) : nat :=
  match n with
  | Dir es =>
      (fix count_entries (l : list (string * node)) : nat :=
         match l with
         | [] => 0
         | (_, sub) :: l' =>
             (if is_dir_node sub then count_files sub else 1) + count_entries l'
         end) es
  | _ => 0
  end.

(** No directory lists a name twice. *)
Fixpoint mem_name (name : string) (l : list string) : bool :=
  match l with
  | [] => false
  | x :: l' => String.eqb x name || mem_name name l'
  end.

Fixpoint distinct (l : list string) : bool :=
  match l with
  | [] => true
  | x :: l' => negb (mem_name x l') && distinct l'
  end.

Fixpoint unique_names (n : node) : bool :=
  match n with
  | Dir es =>
      distinct (map fst es)
      && (fix unique_entries (l : list (string * node)) : bool :=
            match l with
            | [] => true
            | (_, sub) :: l' => unique_names sub && unique_entries l'
            end) es
  | _ => true
  end.

End OsPath.

(** ** Exceptions, requests and the monad of the script *)

(** The exception classes that matter: [botocore.exceptions.ClientError],
    the only class the script catches, [IndexError], and any other class
    (named), none of which is a subclass of [ClientError]. *)
Inductive exn : Type :=
  | ClientError (msg : string)
  | IndexError
  | OtherError (cls : string).

Definition is_client_error (e : exn) : bool :=
  match e with ClientError _ => true | _ => false end.

Record cors_rule : Type := mkCorsRule {
  AllowedHeaders : list string;
  AllowedMethods : list string;
  AllowedOrigins : list string;
  ExposeHeaders : list string;
  MaxAgeSeconds : nat
}.

(** The policy dictionary handed to [json.dumps]; its serialisation is not
    modelled, the request carries the dictionary. *)
Record policy_statement : Type := mkStatement {
  Sid : string;
  Effect : string;
  Principal : string;
  Action : list string;
  Resource : list string
}.

Record bucket_policy : Type := mkPolicy {
  Version : string;
  Statement : list policy_statement
}.

(** The requests the script sends through an S3 client. *)
Inductive request : Type :=
  | CreateBucket (bucket : string) (location_constraint : option string)
  | PutBucketCors (bucket : string) (rules : list cors_rule)
  | PutBucketPolicy (bucket : string) (policy : bucket_policy)
  | PutBucketWebsite (bucket : string) (error_key index_suffix : string)
  | UploadFile (filename bucket key : string) (extra_args : list (string * string)).

(** A call is a request through a client; [client_region] is the
    [region_name] the client was made with, if any. *)
Record call : Type := mkCall {
  client_region : option string;
  req : request
}.

(** The key of a request, for uploads. *)
Definition request_key (r : request) : option string :=
  match r with
  | UploadFile _ _ key _ => Some key
  | _ => None
  end.

(** The local file of a request, for uploads. *)
Definition request_filename (r : request) : option string :=
  match r with
  | UploadFile filename _ _ _ => Some filename
  | _ => None
  end.

(** One entry of the trace: the call and the exception it raised, if any. *)
Definition event : Type := call * option exn.

Record world : Type := mkWorld {
  trace : list event;     (* calls issued so far, oldest first *)
  log : list string       (* lines written by [logging.error] *)
}.

Inductive res (A : Type) : Type :=
  | Return (a : A)
  | Raise (e : exn).
Arguments Return {A} a.
Arguments Raise {A} e.

Definition M (A : Type) : Type := world -> res A * world.

Definition raise {A} (e : exn) : M A := fun w => (Raise e, w).

#[global] Instance M_ret : MRet M := fun A a w => (Return a, w).

#[global] Instance M_bind : MBind M := fun A B k m w =>
  match m w with
  | (Return a, w') => k a w'
  | (Raise e, w') => (Raise e, w')
  end.

(** [logging.error(line)] *)
Definition logging_error (line : string) : M unit :=
  fun w => (Return tt, mkWorld (trace w) (log w ++ [line])).

(** [for x in l: body x] *)
Fixpoint for_each {A} (l : list A) (body : A -> M unit) : M unit :=
  match l with
  | [] => mret tt
  | x :: l' => body x ;; for_each l' body
  end.

(** The shape all four remote operations share:
<<
    try:
        body
    except ClientError as e:
        logging.error(e)
        return False
    return True
>>
    An exception of another class leaves the function. *)
Definition try_except_ClientError (body : M unit) : M bool :=
  fun w =>
    match body w with
    | (Return _, w') => (Return true, w')
    | (Raise (ClientError msg), w') => (logging_error msg ;; mret false) w'
    | (Raise e, w') => (Raise e, w')
    end.


(** What the bucket holds under a key after an upload. *)
Record stored_object : Type := mkObject {
  source : string;
  content_type : option string
}.

Fixpoint assoc (k : string) (l : list (string * string)) : option string :=
  match l with
  | [] => None
  | (k', v) :: l' => if String.eqb k' k then Some v else assoc k l'
  end.

(** The objects in the service after a trace: every upload that did not
    raise stores its file under (bucket, key), replacing what was there. *)
Definition apply_event (objs : gmap (string * string) stored_object) (ev : event)
  : gmap (string * string) stored_object :=
  match ev with
  | (mkCall _ (UploadFile filename bucket key extra), None) =>
      <[(bucket, key) := mkObject filename (assoc "ContentType" extra)]> objs
  | _ => objs
  end.

Definition remote_objects (tr : list event) : gmap (string * string) stored_object :=
  foldl apply_event ∅ tr.

(** The keys of the uploads of a trace that went through, oldest first. *)
Definition uploaded_keys (tr : list event) : list string :=
  omap (fun ev : event =>
          match snd ev with
          | None => request_key (req (fst ev))
          | Some _ => None
          end) tr.

(** ** The script *)

Section Deployer.

(** [mimetypes.guess_type(path)[0]] *)
Variable guess_type : string -> option string.

(** The storage service and the SDK in front of it: given the calls made
    so far and the next call, the exception that call raises, if any.
    (Of the SDK's methods, [create_bucket] and the [put_bucket_*] raise
    the service's refusal as a [ClientError]; [upload_file] raises it as
    an [S3UploadFailedError], which is no [ClientError].) *)
Variable provider : list event -> call -> option exn.

(** The local file system the script reads. *)
Variable fs : OsPath.filesystem.

(** [boto3.client('s3')] when [region] is [None], else
    [boto3.client('s3', region_name=region)]; making a client sends
    nothing. *)
Definition s3_client (region : option string) : option string :=
  match region with
  | None => None
  | Some r => Some r
  end.

(** A method call on a client: it is appended to the trace with its
    outcome, and raises what the provider answers. *)
Definition send (client : option string) (r : request) : M unit :=
  fun w =>
    let c := mkCall client r in
    match provider (trace w) c with
    | None => (Return tt, mkWorld (trace w ++ [(c, None)]) (log w))
    | Some e => (Raise e, mkWorld (trace w ++ [(c, Some e)]) (log w))
    end.

(** The [extra_args] dictionary built from the guessed content type. *)
Definition extra_args_for (path : string) : list (string * string) :=
  let content_type := guess_type path in
  if PyStr.truthy content_type then
    match content_type with
    | Some ct => [("ContentType", ct)]
    | None => []
    end
  else [].

Definition create_bucket (bucket_name : string) (region : option string) : M bool :=
  try_except_ClientError
    (match region with
     | None =>
         send (s3_client None) (CreateBucket bucket_name None)
     | Some r =>
         let location := Some r in
         send (s3_client (Some r)) (CreateBucket bucket_name location)
     end).

Definition cors_configuration : list cors_rule :=
  [ mkCorsRule ["Authorization"] ["GET"; "PUT"] ["*"] ["GET"; "PUT"] 3000 ].

Definition public_read_policy (bucket_name : string) : bucket_policy :=
  mkPolicy "2012-10-17"
    [ mkStatement "PublicReadGetObject" "Allow" "*" ["s3:GetObject"]
        ["arn:aws:s3:::" +:+ bucket_name +:+ "/*"] ].

Definition set_bucket_web_config (bucket_name : string) (region : option string)
    (index_doc error_doc : option string) (cors public : bool) : M bool :=
  try_except_ClientError
    (let client := s3_client region in
     (if cors then send client (PutBucketCors bucket_name cors_configuration)
      else mret tt) ;;
     (if public then
        send client (PutBucketPolicy bucket_name (public_read_policy bucket_name)) ;;
        let index_doc := match index_doc with None => "index.html" | Some d => d end in
        let error_doc := match error_doc with None => "error.html" | Some d => d end in
        send client (PutBucketWebsite bucket_name error_doc index_doc)
      else mret tt)).

Definition upload_file (bucket_name filepath : string)
    (region key : option string) : M bool :=
  try_except_ClientError
    (let client := s3_client region in
     let extra_args := extra_args_for filepath in
     match key with
     | None => send client (UploadFile filepath bucket_name filepath extra_args)
     | Some k => send client (UploadFile filepath bucket_name k extra_args)
     end).

(** The second half of [upload_dir]'s body, once [dirpath] is absolute:
    the two nested loops over [os.walk]. *)
Definition upload_walk (client : option string) (bucket_name dirpath key : string)
  : M unit :=
  match OsPath.walk fs dirpath with
  | None => raise (OtherError "ValueError")
  | Some entries =>
      for_each entries (fun '(root, _, files) =>
        for_each files (fun name =>
          let path := OsPath.join root name in
          let file_key := PyStr.replace1 dirpath key path in
          let extra_args := extra_args_for path in
          send client (UploadFile path bucket_name file_key extra_args)))
  end.

(** [dirpath] after the test on its first character. *)
Definition absolute (dirpath : string) (c0 : ascii) : string :=
  if negb (Ascii.eqb c0 PyStr.sep) then OsPath.join (OsPath.fs_cwd fs) dirpath
  else dirpath.

Definition upload_dir (bucket_name dirpath : string)
    (region key : option string) : M bool :=
  try_except_ClientError
    (let client := s3_client region in
     let key := match key with None => dirpath | Some k => k end in
     c0 ← match PyStr.first_char dirpath with
          | Some c => mret c
          | None => raise IndexError
          end;
     let dirpath := absolute dirpath c0 in
     upload_walk client bucket_name dirpath key).

(** *** Vocabulary for the statements *)

(** The events of calls that went through. *)
Definition oks (client : option string) (rs : list request) : list event :=
  map (fun r => (mkCall client r, None)) rs.

(** The provider accepts the requests [rs], sent in this order after the
    trace [tr]. *)
Fixpoint accepts (client : option string) (tr : list event) (rs : list request)
  : bool :=
  match rs with
  | [] => true
  | r :: rs' =>
      match provider tr (mkCall client r) with
      | None => accepts client (tr ++ [(mkCall client r, None)]) rs'
      | Some _ => false
      end
  end.

(** The upload request [upload_dir] makes for one walked path. *)
Definition dir_request (bucket_name dirpath key path : string) : request :=
  UploadFile path bucket_name (PyStr.replace1 dirpath key path) (extra_args_for path).

(** The requests of a whole directory, in walk order. *)
Definition dir_requests (bucket_name dirpath key : string) : list request :=
  map (dir_request bucket_name dirpath key) (OsPath.walk_paths fs dirpath).


(** The requests of [set_bucket_web_config], in the order it sends them. *)
Definition web_requests (bucket_name : string) (index_doc error_doc : option string)
    (cors public : bool) : list request :=
  (if cors then [PutBucketCors bucket_name cors_configuration] else [])
  ++ (if public then
        [ PutBucketPolicy bucket_name (public_read_policy bucket_name);
          PutBucketWebsite bucket_name
            (match error_doc with None => "error.html" | Some d => d end)
            (match index_doc with None => "index.html" | Some d => d end) ]
      else []).

Definition upload (bucket_name path : string) (region key : option string) : M bool :=
  if OsPath.isfile fs path then upload_file bucket_name path region key
  else if OsPath.isdir fs path then upload_dir bucket_name path region key
  else
    logging_error "Error: unsupported special file (socket, FIFO, device file)" ;;
    mret false.

(** The statements at the end of the module, which run when it is
    loaded; the three results are dropped. *)
Definition bucket_name : string := "raudipra-coms6998-test".

Definition script : M unit :=
  create_bucket bucket_name None ;;
  upload bucket_name "../src/" None (Some "") ;;
  set_bucket_web_config bucket_name None (Some "chat.html") None true true ;;
  mret tt.

End Deployer.

(** ** Concrete environments

    Instances of the environment, for the scenarios below. *)

Module Scenario.

(** An instance of [mimetypes.guess_type] on a few common extensions. *)
Definition guess_common (path : string) : option string :=
  if PyStr.endswith ".html" path then Some "text/html"
  else if PyStr.endswith ".css" path then Some "text/css"
  else if PyStr.endswith ".png" path then Some "image/png"
  else if PyStr.endswith ".txt" path then Some "text/plain"
  else if PyStr.endswith ".json" path then Some "application/json"
  else None.

(** A service that accepts every call. *)
Definition always_ok : list event -> call -> option exn := fun _ _ => None.

(** A service that refuses the upload to [key]: the SDK's [upload_file]
    turns the refusal into an [S3UploadFailedError], which is not a
    [ClientError]. *)
Definition denies_key (key : string) : list event -> call -> option exn :=
  fun _ c =>
    match req c with
    | UploadFile _ _ k _ =>
        if String.eqb k key then Some (OtherError "S3UploadFailedError") else None
    | _ => None
    end.

(** A relative path with a NUL character in it. *)
Definition nul_path : string := String "a"%char (String Ascii.zero "b").

(** An SDK that fails every call with an exception that is not a
    [ClientError]. *)
Definition always_other : list event -> call -> option exn :=
  fun _ _ => Some (OtherError "EndpointConnectionError").

(** The directory [site] of the end-to-end scenario. *)
Definition site : OsPath.node :=
  OsPath.Dir [ ("index.html", OsPath.File);
               ("css", OsPath.Dir [ ("style.css", OsPath.File) ]) ].

(** A machine with [/home/user/site], a FIFO and a text file, run from
    [/home/user]. *)
Definition home_fs : OsPath.filesystem :=
  OsPath.mkFs
    (OsPath.Dir [ ("home", OsPath.Dir [ ("user", OsPath.Dir
         [ ("site", site); ("pipe", OsPath.Special); ("notes.txt", OsPath.File) ]) ]) ])
    "/home/user".

Definition w0 : world := mkWorld [] [].

(** A service that refuses, with a [ClientError], to create buckets. *)
Definition denies_create : list event -> call -> option exn :=
  fun _ c =>
    match req c with
    | CreateBucket _ _ => Some (ClientError "BucketAlreadyExists")
    | _ => None
    end.

(** A service that refuses, with a [ClientError], to set a policy. *)
Definition denies_policy : list event -> call -> option exn :=
  fun _ c =>
    match req c with
    | PutBucketPolicy _ _ => Some (ClientError "AccessDenied")
    | _ => None
    end.

(** A checkout of the repository: the script is run from [deployment],
    the pages are in [src]. *)
Definition repo_fs : OsPath.filesystem :=
  OsPath.mkFs
    (OsPath.Dir [ ("repo", OsPath.Dir
         [ ("deployment", OsPath.Dir [ ("s3.py", OsPath.File) ]);
           ("src", OsPath.Dir
              [ ("chat.html", OsPath.File);
                ("assets", OsPath.Dir [ ("chat.css", OsPath.File);
                                        ("queue", OsPath.Special) ]) ]) ]) ])
    "/repo/deployment".

End Scenario.


(** * Properties *)

(** ** Strings and paths *)

Section StringFacts.

Lemma append_assoc (a b c : string) : (a +:+ b) +:+ c = a +:+ (b +:+ c).
Proof.
  induction a as [|x a IH]; [reflexivity|].
  change (String x ((a +:+ b) +:+ c) = String x (a +:+ (b +:+ c))).
  now rewrite IH.
Qed.

Lemma startswith_cons (a b : ascii) (p s : string) :
  PyStr.startswith (String a p) (String b s)
  = if Ascii.eqb a b then PyStr.startswith p s else false.
Proof. reflexivity. Qed.

Lemma startswith_append (p s : string) : PyStr.startswith p (p +:+ s) = true.
Proof.
  induction p as [|a p IH]; simpl; [reflexivity|].
  now rewrite Ascii.eqb_refl.
Qed.

Lemma startswith_trans_append (p s t : string) :
  PyStr.startswith p s = true -> PyStr.startswith p (s +:+ t) = true.
Proof.
  revert s; induction p as [|a p IH]; intros [|b s]; simpl; try easy.
  destruct (Ascii.eqb a b); [apply IH | easy].
Qed.

Lemma startswith_split (p s : string) :
  PyStr.startswith p s = true -> exists t, s = p +:+ t.
Proof.
  revert s; induction p as [|a p IH]; intros s H.
  - now exists s.
  - destruct s as [|b s]; simpl in H; [easy|].
    destruct (Ascii.eqb_spec a b) as [->|]; [|easy].
    destruct (IH _ H) as [t ->]. now exists t.
Qed.

Lemma drop_append (p s : string) : PyStr.drop (String.length p) (p +:+ s) = s.
Proof. induction p as [|a p IH]; simpl; [now destruct s | exact IH]. Qed.

(** Replacing the first occurrence of a prefix replaces the prefix. *)
Lemma replace1_prefix (old new s : string) :
  PyStr.replace1 old new (old +:+ s) = new +:+ s.
Proof.
  destruct old as [|a old]; simpl.
  - now destruct s.
  - now rewrite Ascii.eqb_refl, startswith_append, drop_append.
Qed.

Lemma join_relative (a b : string) :
  PyStr.startswith "/" b = false -> OsPath.join a b = a +:+ OsPath.glue a +:+ b.
Proof.
  intros H. unfold OsPath.join, OsPath.glue. rewrite H.
  now destruct (orb (String.eqb a "") (PyStr.endswith "/" a)).
Qed.

Lemma name_ok_relative (name : string) :
  OsPath.name_ok name = true -> PyStr.startswith "/" name = false.
Proof.
  destruct name as [|c name]; [easy|].
  intros H. rewrite startswith_cons.
  destruct (Ascii.eqb_spec "/" c) as [<-|]; [|reflexivity].
  discriminate H.
Qed.

Lemma has_nul_append (a b : string) :
  PyStr.has_nul (a +:+ b) = PyStr.has_nul a || PyStr.has_nul b.
Proof.
  induction a as [|c a IH]; [reflexivity|].
  change (String c a +:+ b) with (String c (a +:+ b)).
  simpl. now rewrite IH, orb_assoc.
Qed.

Lemma append_nonempty (x s : string) : s <> "" -> x +:+ s <> "".
Proof. destruct x; [easy | discriminate]. Qed.

Lemma endswith_sep_append (x s : string) :
  s <> "" -> PyStr.endswith "/" s = false -> PyStr.endswith "/" (x +:+ s) = false.
Proof.
  intros Hne Hs. induction x as [|a x IH]; [exact Hs|].
  change (String a x +:+ s) with (String a (x +:+ s)).
  cbn [PyStr.endswith].
  destruct (String.eqb_spec "/" (String a (x +:+ s))) as [E|_]; [|exact IH].
  injection E as _ E. symmetry in E. now apply append_nonempty in E.
Qed.

(** After a path that does not end with the separator, [join] puts one. *)
Lemma join_after (x s name : string) :
  s <> "" -> PyStr.endswith "/" s = false -> PyStr.startswith "/" name = false ->
  OsPath.join (x +:+ s) name = (x +:+ s) +:+ "/" +:+ name.
Proof.
  intros Hne Hs Hn. rewrite join_relative by exact Hn. unfold OsPath.glue.
  rewrite (endswith_sep_append x s Hne Hs).
  destruct (String.eqb_spec (x +:+ s) "") as [E|_]; [|reflexivity].
  now apply append_nonempty in E.
Qed.

End StringFacts.

(** ** Running the monad *)

Lemma bind_run {A B} (m : M A) (k : A -> M B) (w : world) :
  (m ≫= k) w = match m w with
               | (Return a, w') => k a w'
               | (Raise e, w') => (Raise e, w')
               end.
Proof. reflexivity. Qed.

Lemma bind_ext {A B} (m : M A) (k1 k2 : A -> M B) (w : world) :
  (forall a w', k1 a w' = k2 a w') -> (m ≫= k1) w = (m ≫= k2) w.
Proof. intros H. rewrite !bind_run. destruct (m w) as [[a|e] w']; [apply H | reflexivity]. Qed.

Lemma bind_ret_unit (m : M unit) (w : world) : (m ;; mret tt) w = m w.
Proof. rewrite bind_run. now destruct (m w) as [[[]|e] w']. Qed.

Lemma for_each_app {A} (l1 l2 : list A) (body : A -> M unit) (w : world) :
  for_each (l1 ++ l2) body w = (for_each l1 body ;; for_each l2 body) w.
Proof.
  revert w; induction l1 as [|x l1 IH]; intros w; [reflexivity|].
  simpl. rewrite !bind_run. destruct (body x w) as [[[]|e] w1]; [|reflexivity].
  rewrite IH. reflexivity.
Qed.

Lemma for_each_map {A B} (g : A -> B) (l : list A) (body : B -> M unit) (w : world) :
  for_each (map g l) body w = for_each l (fun x => body (g x)) w.
Proof.
  revert w; induction l as [|x l IH]; intros w; [reflexivity|].
  simpl. rewrite !bind_run. destruct (body (g x) w) as [[[]|e] w1]; [|reflexivity].
  apply IH.
Qed.

Section DeployerFacts.

Variable guess_type : string -> option string.
Variable provider : list event -> call -> option exn.
Variable fs : OsPath.filesystem.

(** *** A loop of requests *)

(** All requests accepted: the loop ends normally, every call is on the
    trace, in order. *)
Lemma sends_accepted client (rs : list request) (tr : list event) (lg : list string) :
  accepts provider client tr rs = true ->
  for_each rs (send provider client) (mkWorld tr lg)
  = (Return tt, mkWorld (tr ++ oks client rs) lg).
Proof.
  revert tr; induction rs as [|r rs IH]; intros tr H; simpl in *.
  - now rewrite app_nil_r.
  - rewrite bind_run. unfold send at 1. simpl.
    destruct (provider tr (mkCall client r)); [discriminate|].
    rewrite (IH _ H). now rewrite <- app_assoc.
Qed.

(** The first refusal, at position [k]: the loop stops there with the
    exception, the trace holds the [k] calls before it and the refused
    one, nothing after. *)
Lemma sends_refused client (rs : list request) (k : nat) (r : request) (e : exn)
    (tr : list event) (lg : list string) :
  rs !! k = Some r ->
  accepts provider client tr (take k rs) = true ->
  provider (tr ++ oks client (take k rs)) (mkCall client r) = Some e ->
  for_each rs (send provider client) (mkWorld tr lg)
  = (Raise e, mkWorld (tr ++ oks client (take k rs) ++ [(mkCall client r, Some e)]) lg).
Proof.
  revert k tr; induction rs as [|r0 rs IH]; intros k tr Hk Hacc Hfail; [easy|].
  destruct k as [|k]; simpl in *.
  - injection Hk as ->. rewrite app_nil_r in Hfail.
    rewrite bind_run. unfold send at 1. simpl. now rewrite Hfail.
  - rewrite bind_run. unfold send at 1. simpl.
    destruct (provider tr (mkCall client r0)); [discriminate|].
    rewrite (IH k _ Hk Hacc).
    + now rewrite <- app_assoc.
    + now rewrite <- app_assoc.
Qed.

(** Whatever the provider answers, the calls on the trace are an initial
    segment of the requests, through the same client, and the log is
    untouched. *)
Lemma sends_initial_segment client (rs : list request) (w : world) :
  exists evs : list event,
    trace (snd (for_each rs (send provider client) w)) = trace w ++ evs
    /\ log (snd (for_each rs (send provider client) w)) = log w
    /\ map (fun ev : event => req (fst ev)) evs `prefix_of` rs.
Proof.
  revert w; induction rs as [|r rs IH]; intros w; simpl.
  - exists []. rewrite app_nil_r. repeat split. apply prefix_nil.
  - rewrite bind_run. unfold send at 1 3. simpl.
    destruct (provider (trace w) (mkCall client r)) as [e|]; simpl.
    + exists [(mkCall client r, Some e)]. repeat split.
      simpl. apply prefix_cons, prefix_nil.
    + destruct (IH (mkWorld (trace w ++ [(mkCall client r, None)]) (log w)))
        as (evs & Ht & Hl & Hp). simpl in *.
      exists ((mkCall client r, None) :: evs). rewrite Ht, Hl, <- app_assoc.
      repeat split. simpl. now apply prefix_cons.
Qed.

(** Whatever the provider answers, the calls a loop puts on the trace are
    an initial segment of its requests, all through the loop's client. *)
Lemma sends_calls client (rs : list request) (w : world) :
  exists evs : list event,
    trace (snd (for_each rs (send provider client) w)) = trace w ++ evs
    /\ map fst evs `prefix_of` map (mkCall client) rs.
Proof.
  revert w; induction rs as [|r rs IH]; intros w; simpl.
  - exists []. rewrite app_nil_r. split; [reflexivity | apply prefix_nil].
  - rewrite bind_run. unfold send at 1. simpl.
    destruct (provider (trace w) (mkCall client r)) as [e|]; simpl.
    + exists [(mkCall client r, Some e)]. split; [reflexivity|].
      simpl. apply prefix_cons, prefix_nil.
    + destruct (IH (mkWorld (trace w ++ [(mkCall client r, None)]) (log w)))
        as (evs & Ht & Hp). simpl in Ht.
      exists ((mkCall client r, None) :: evs). rewrite Ht, <- app_assoc.
      split; [reflexivity|]. simpl. now apply prefix_cons.
Qed.

(** The two nested loops of [upload_dir] send the requests of the walked
    paths, one after the other. *)
Lemma upload_walk_requests client (bucket_name dirpath key : string) (w : world) :
  PyStr.has_nul dirpath = false ->
  upload_walk guess_type provider fs client bucket_name dirpath key w
  = for_each (dir_requests guess_type fs bucket_name dirpath key) (send provider client) w.
Proof.
  intros Hnul. unfold upload_walk, dir_requests, OsPath.walk_paths, OsPath.walk.
  rewrite Hnul. revert w.
  induction (match OsPath.resolve fs dirpath with
             | Some n => OsPath.walk_node dirpath n
             | None => []
             end) as [|[[root ds] files] l IH]; intros w.
  - reflexivity.
  - simpl. rewrite map_app, for_each_app, !bind_run, !for_each_map.
    unfold dir_request at 1.
    destruct (for_each files _ w) as [[[]|e] w1]; [|reflexivity].
    apply IH.
Qed.

(** On a path with a NUL character the walk raises before anything is
    sent. *)
Lemma upload_walk_nul client (bucket_name dirpath key : string) (w : world) :
  PyStr.has_nul dirpath = true ->
  upload_walk guess_type provider fs client bucket_name dirpath key w
  = (Raise (OtherError "ValueError"), w).
Proof.
  intros Hnul. unfold upload_walk, OsPath.walk. now rewrite Hnul.
Qed.

Lemma resolve_no_nul (path : string) (n : OsPath.node) :
  OsPath.resolve fs path = Some n -> PyStr.has_nul path = false.
Proof.
  unfold OsPath.resolve. destruct (String.eqb path ""); [discriminate|].
  destruct (PyStr.startswith "/" path).
  - now destruct (PyStr.has_nul path).
  - rewrite !has_nul_append.
    destruct (PyStr.has_nul path); [|reflexivity].
    now rewrite !orb_true_r.
Qed.


Lemma walk_paths_nul (top : string) :
  PyStr.has_nul top = true -> OsPath.walk_paths fs top = [].
Proof. intros H. unfold OsPath.walk_paths, OsPath.walk. now rewrite H. Qed.

(** *** The handler *)

Lemma try_ext (body1 body2 : M unit) (w : world) :
  body1 w = body2 w ->
  try_except_ClientError body1 w = try_except_ClientError body2 w.
Proof. intros H. unfold try_except_ClientError. now rewrite H. Qed.

Lemma try_returned (body : M unit) (w w' : world) :
  body w = (Return tt, w') -> try_except_ClientError body w = (Return true, w').
Proof. intros H. unfold try_except_ClientError. now rewrite H. Qed.

Lemma try_caught (body : M unit) (w w' : world) (msg : string) :
  body w = (Raise (ClientError msg), w') ->
  try_except_ClientError body w
  = (Return false, mkWorld (trace w') (log w' ++ [msg])).
Proof. intros H. unfold try_except_ClientError. now rewrite H. Qed.

Lemma try_escapes (body : M unit) (w w' : world) (e : exn) :
  body w = (Raise e, w') -> is_client_error e = false ->
  try_except_ClientError body w = (Raise e, w').
Proof.
  intros H He. unfold try_except_ClientError. rewrite H.
  now destruct e.
Qed.

Lemma s3_client_id (region : option string) : s3_client region = region.
Proof. now destruct region. Qed.




Lemma upload_dir_body (bucket_name : string) (c : ascii) (rest : string)
    (region key : option string) (w : world) :
  PyStr.has_nul (absolute fs (String c rest) c) = false ->
  upload_dir guess_type provider fs bucket_name (String c rest) region key w
  = try_except_ClientError
      (for_each
         (dir_requests guess_type fs bucket_name
            (absolute fs (String c rest) c)
            (match key with None => String c rest | Some k => k end))
         (send provider region)) w.
Proof.
  intros Hnul. unfold upload_dir. apply try_ext. rewrite bind_run. simpl.
  rewrite upload_walk_requests by exact Hnul. now rewrite s3_client_id.
Qed.

(** With a NUL character in the directory to walk, [upload_dir] raises
    the [ValueError] of [os.walk]: no call, no log line. *)
Lemma upload_dir_nul (bucket_name : string) (c : ascii) (rest : string)
    (region key : option string) (w : world) :
  PyStr.has_nul (absolute fs (String c rest) c) = true ->
  upload_dir guess_type provider fs bucket_name (String c rest) region key w
  = (Raise (OtherError "ValueError"), w).
Proof.
  intros Hnul. unfold upload_dir.
  apply try_escapes; [|reflexivity].
  rewrite bind_run. simpl. now apply upload_walk_nul.
Qed.

Lemma web_config_body (bucket_name : string) (region index_doc error_doc : option string)
    (cors public : bool) (w : world) :
  set_bucket_web_config provider bucket_name region index_doc error_doc cors public w
  = try_except_ClientError
      (for_each (web_requests bucket_name index_doc error_doc cors public)
         (send provider region)) w.
Proof.
  unfold set_bucket_web_config. apply try_ext. rewrite s3_client_id.
  destruct cors, public; simpl.
  - apply bind_ext; intros _ w1. apply bind_ext; intros _ w2.
    symmetry. apply bind_ret_unit.
  - reflexivity.
  - change ((send provider region
               (PutBucketPolicy bucket_name (public_read_policy bucket_name)) ;;
             send provider region
               (PutBucketWebsite bucket_name
                  match error_doc with Some d => d | None => "error.html" end
                  match index_doc with Some d => d | None => "index.html" end)) w
            = for_each (web_requests bucket_name index_doc error_doc false true)
                (send provider region) w).
    simpl. apply bind_ext; intros _ w1. symmetry. apply bind_ret_unit.
  - reflexivity.
Qed.

End DeployerFacts.

(** ** Walking a well-formed tree *)

Section TreeFacts.

(** Induction on trees, with the hypothesis for every entry of a
    directory. *)
Lemma node_nested_ind (P : OsPath.node -> Prop) :
  P OsPath.File -> P OsPath.Special ->
  (forall es, Forall (fun e => P (snd e)) es -> P (OsPath.Dir es)) ->
  forall n, P n.
Proof.
  intros Hf Hs Hd. fix IH 1. intros [| |es]; [exact Hf | exact Hs |].
  apply Hd. induction es as [|[name sub] es IHes]; constructor.
  - apply IH.
  - exact IHes.
Qed.

Lemma wf_node_Dir (es : list (string * OsPath.node)) :
  OsPath.wf_node (OsPath.Dir es) = true
  <-> Forall (fun e => OsPath.name_ok (fst e) = true
                       /\ OsPath.wf_node (snd e) = true) es.
Proof.
  induction es as [|[name sub] es IH].
  - split; [constructor | reflexivity].
  - change (OsPath.wf_node (OsPath.Dir ((name, sub) :: es)))
      with (OsPath.name_ok name && OsPath.wf_node sub
            && OsPath.wf_node (OsPath.Dir es)).
    rewrite !andb_true_iff, IH, Forall_cons. simpl. tauto.
Qed.

Lemma lookup_entry_wf (name : string) (es : list (string * OsPath.node)) (x : OsPath.node) :
  OsPath.wf_node (OsPath.Dir es) = true ->
  OsPath.lookup_entry name es = Some x -> OsPath.wf_node x = true.
Proof.
  rewrite wf_node_Dir. induction 1 as [|[n y] es [_ Hy] _ IH]; simpl; [easy|].
  destruct (String.eqb n name); [now intros [= <-] | exact IH].
Qed.

Lemma resolve_from_wf (comps : list string) (stack : list OsPath.node)
    (cur n : OsPath.node) :
  Forall (fun d => OsPath.wf_node d = true) stack ->
  OsPath.wf_node cur = true ->
  OsPath.resolve_from stack cur comps = Some n -> OsPath.wf_node n = true.
Proof.
  revert stack cur. induction comps as [|c comps IH]; intros stack cur Hst Hcur; simpl.
  - now intros [= <-].
  - destruct cur as [| |es]; try discriminate.
    destruct (orb (String.eqb c "") (String.eqb c ".")); [now apply IH|].
    destruct (String.eqb c "..").
    + destruct stack as [|up stack]; [now apply IH|].
      inversion Hst; subst. now apply IH.
    + destruct (OsPath.lookup_entry c es) as [x|] eqn:E; [|discriminate].
      apply IH; [now constructor | now apply (lookup_entry_wf c es)].
Qed.

Lemma resolve_wf (fs : OsPath.filesystem) (path : string) (n : OsPath.node) :
  OsPath.wf_fs fs = true -> OsPath.resolve fs path = Some n ->
  OsPath.wf_node n = true.
Proof.
  unfold OsPath.wf_fs, OsPath.resolve. intros Hwf.
  destruct (String.eqb path ""); [discriminate|].
  destruct (PyStr.has_nul _); [discriminate|].
  now apply resolve_from_wf.
Qed.

Lemma filenames_ok (es : list (string * OsPath.node)) :
  OsPath.wf_node (OsPath.Dir es) = true ->
  Forall (fun name => OsPath.name_ok name = true) (OsPath.filenames es).
Proof.
  rewrite wf_node_Dir. unfold OsPath.filenames.
  induction 1 as [|[n y] es [Hn _] _ IH]; [constructor|].
  rewrite filter_cons. simpl. case_decide; [constructor|]; assumption.
Qed.

(** Joining a relative name keeps what the path started with. *)
Lemma join_startswith (top root name : string) :
  OsPath.name_ok name = true ->
  PyStr.startswith top root = true ->
  PyStr.startswith top (OsPath.join root name) = true.
Proof.
  intros Hn Hr. rewrite join_relative by now apply name_ok_relative.
  now apply startswith_trans_append.
Qed.

Lemma startswith_refl (s : string) : PyStr.startswith s s = true.
Proof. induction s as [|a s IH]; simpl; [reflexivity | now rewrite Ascii.eqb_refl]. Qed.

(** Every directory [os.walk] reports lies under the directory walked, and
    so does every file joined to it. *)
Lemma walk_node_under (top0 : string) (n : OsPath.node) :
  OsPath.wf_node n = true ->
  forall top, PyStr.startswith top0 top = true ->
  Forall (fun t : string * list string * list string =>
            Forall (fun name => PyStr.startswith top0 (OsPath.join (fst (fst t)) name) = true)
                   (snd t))
         (OsPath.walk_node top n).
Proof.
  induction n as [| |es IH] using node_nested_ind; intros Hwf top Htop;
    [constructor | constructor |].
  simpl. constructor.
  - simpl. eapply Forall_impl; [now apply filenames_ok|].
    intros name Hn. simpl in Hn. now apply join_startswith.
  - apply wf_node_Dir in Hwf.
    induction es as [|[name sub] es IHes]; [constructor|].
    inversion IH as [|? ? Hsub Hes]; subst. inversion Hwf as [|? ? [Hn Hs] Hwfes]; subst.
    simpl in *. apply Forall_app. split.
    + apply Hsub; [exact Hs | now apply join_startswith].
    + apply IHes; assumption.
Qed.

Lemma walk_paths_under (fs : OsPath.filesystem) (top : string) :
  OsPath.wf_fs fs = true ->
  Forall (fun path => PyStr.startswith top path = true) (OsPath.walk_paths fs top).
Proof.
  intros Hwf. unfold OsPath.walk_paths, OsPath.walk.
  destruct (PyStr.has_nul top); [constructor|].
  destruct (OsPath.resolve fs top) as [n|] eqn:E; [|constructor].
  pose proof (walk_node_under top n (resolve_wf _ _ _ Hwf E) top (startswith_refl top)) as H.
  induction H as [|[[root ds] files] l Hx _ IH]; [constructor|].
  simpl. apply Forall_app. split; [|exact IH].
  simpl in Hx. clear IH. induction Hx; constructor; assumption.
Qed.

End TreeFacts.

(** ** The operations *)

Section Claims.

Variable guess_type : string -> option string.
Variable provider : list event -> call -> option exn.
Variable fs : OsPath.filesystem.

(** C2.  On a path that is neither a regular file nor a directory,
    [upload] returns [False]; the trace of remote calls is the one it
    started with, and the only effect is the error line on the log. *)
Theorem upload_unsupported_path (bucket_name path : string)
    (region key : option string) (w : world) :
  OsPath.isfile fs path = false ->
  OsPath.isdir fs path = false ->
  upload guess_type provider fs bucket_name path region key w
  = (Return false,
     mkWorld (trace w)
       (log w ++ ["Error: unsupported special file (socket, FIFO, device file)"])).
Proof.
  intros Hfile Hdir. unfold upload. rewrite Hfile, Hdir. reflexivity.
Qed.

(** C4.  With [cors=False] and [public=False], [set_bucket_web_config]
    returns [True] and leaves the world as it found it: no CORS, policy or
    website request is sent, and nothing is logged. *)
Theorem set_bucket_web_config_nothing_to_do (bucket_name : string)
    (region index_doc error_doc : option string) (w : world) :
  set_bucket_web_config provider bucket_name region index_doc error_doc false false w
  = (Return true, w).
Proof. reflexivity. Qed.

(** C5.  [create_bucket] sends exactly one bucket-creation request.
    Without a region the request has no location constraint and goes
    through the default client; with a region [r] it carries [r] as its
    location constraint, through a client made for [r]. *)
Theorem create_bucket_location_constraint (bucket_name : string) (w : world) :
  trace (snd (create_bucket provider bucket_name None w))
  = trace w ++ [ (mkCall None (CreateBucket bucket_name None),
                  provider (trace w) (mkCall None (CreateBucket bucket_name None))) ]
  /\ forall r : string,
      trace (snd (create_bucket provider bucket_name (Some r) w))
      = trace w ++ [ (mkCall (Some r) (CreateBucket bucket_name (Some r)),
                      provider (trace w)
                        (mkCall (Some r) (CreateBucket bucket_name (Some r)))) ].
Proof.
  split; [|intros r]; unfold create_bucket, try_except_ClientError, send; simpl;
    destruct (provider (trace w) _) as [[msg| |]|]; reflexivity.
Qed.

(** C6.  [upload_file] sends one upload request.  Its extra arguments are
    the single entry [ContentType] with the guessed type when
    [mimetypes] recognises the file name, and empty when it does not. *)
Theorem upload_file_content_type (bucket_name filepath : string)
    (region key : option string) (w : world) :
  exists (k : string) (extra : list (string * string)) (outcome : option exn),
    trace (snd (upload_file guess_type provider bucket_name filepath region key w))
    = trace w ++ [ (mkCall region (UploadFile filepath bucket_name k extra), outcome) ]
    /\ (forall ct, guess_type filepath = Some ct -> ct <> "" ->
        extra = [("ContentType", ct)])
    /\ (guess_type filepath = None -> extra = []).
Proof.
  exists (match key with None => filepath | Some k => k end),
         (extra_args_for guess_type filepath),
         (provider (trace w)
            (mkCall region
               (UploadFile filepath bucket_name
                  (match key with None => filepath | Some k => k end)
                  (extra_args_for guess_type filepath)))).
  split; [|split].
  - unfold upload_file, try_except_ClientError. rewrite s3_client_id.
    destruct key; unfold send; simpl;
      destruct (provider (trace w) _) as [[msg| |]|]; reflexivity.
  - intros ct H Hne. unfold extra_args_for. rewrite H.
    destruct ct; [contradiction | reflexivity].
  - intros H. unfold extra_args_for. now rewrite H.
Qed.

(** C7.  [upload_file] uploads under the key it is given, and under the
    file path itself when it is given none. *)
Theorem upload_file_key (bucket_name filepath : string)
    (region : option string) (w : world) :
  (forall k : string,
     exists extra outcome,
       trace (snd (upload_file guess_type provider bucket_name filepath region (Some k) w))
       = trace w ++ [ (mkCall region (UploadFile filepath bucket_name k extra), outcome) ])
  /\ (exists extra outcome,
       trace (snd (upload_file guess_type provider bucket_name filepath region None w))
       = trace w ++ [ (mkCall region (UploadFile filepath bucket_name filepath extra),
                       outcome) ]).
Proof.
  split; [intros k|];
    exists (extra_args_for guess_type filepath);
    [ exists (provider (trace w)
                (mkCall region (UploadFile filepath bucket_name k
                                  (extra_args_for guess_type filepath))))
    | exists (provider (trace w)
                (mkCall region (UploadFile filepath bucket_name filepath
                                  (extra_args_for guess_type filepath)))) ];
    unfold upload_file, try_except_ClientError; rewrite s3_client_id;
    unfold send; simpl;
    destruct (provider (trace w) _) as [[msg| |]|]; reflexivity.
Qed.


(** C3 (the defect).  The handlers catch [ClientError] only.  When an
    upload is refused with an exception of another class, as the SDK's
    [upload_file] does with its [S3UploadFailedError], [upload_file]
    raises it to its caller, and so does [upload] on a regular file: no
    [False] is returned and nothing is logged. *)
Theorem refused_upload_escapes (bucket_name filepath : string)
    (region key : option string) (w : world) (e : exn) :
  provider (trace w)
    (mkCall region
       (UploadFile filepath bucket_name (default filepath key)
          (extra_args_for guess_type filepath))) = Some e ->
  is_client_error e = false ->
  upload_file guess_type provider bucket_name filepath region key w
  = (Raise e,
     mkWorld
       (trace w
        ++ [ (mkCall region
                (UploadFile filepath bucket_name (default filepath key)
                   (extra_args_for guess_type filepath)), Some e) ])
       (log w))
  /\ (OsPath.isfile fs filepath = true ->
      upload guess_type provider fs bucket_name filepath region key w
      = (Raise e,
         mkWorld
           (trace w
            ++ [ (mkCall region
                    (UploadFile filepath bucket_name (default filepath key)
                       (extra_args_for guess_type filepath)), Some e) ])
           (log w))).
Proof.
  intros Hfail He.
  assert (Hrun : upload_file guess_type provider bucket_name filepath region key w
                 = (Raise e,
                    mkWorld
                      (trace w
                       ++ [ (mkCall region
                               (UploadFile filepath bucket_name (default filepath key)
                                  (extra_args_for guess_type filepath)), Some e) ])
                      (log w))).
  { unfold upload_file. rewrite s3_client_id.
    apply try_escapes; [|exact He].
    destruct key; unfold send; simpl in *; now rewrite Hfail. }
  split; [exact Hrun|].
  intros Hfile. unfold upload. now rewrite Hfile.
Qed.

(** The objects in the service after more events. *)
Lemma remote_objects_app (tr evs : list event) :
  remote_objects (tr ++ evs) = foldl apply_event (remote_objects tr) evs.
Proof. unfold remote_objects. apply foldl_app. Qed.

(** C8 (the defect).  [upload_dir] sends its uploads one after the other,
    in walk order.  When the first refusal, at position [k], is the
    [S3UploadFailedError] the SDK's [upload_file] raises, the walk stops
    there, nothing after it is sent, and the [k] uploads before it stay in
    the service; but the exception is not a [ClientError]: the function
    raises it instead of returning [False], and logs nothing. *)
Theorem upload_dir_refused_upload_raises (bucket_name dirpath : string) (c0 : ascii)
    (region key : option string) (w : world) (reqs : list request)
    (k : nat) (r : request) :
  PyStr.first_char dirpath = Some c0 ->
  reqs = dir_requests guess_type fs bucket_name (absolute fs dirpath c0)
           (match key with None => dirpath | Some k0 => k0 end) ->
  reqs !! k = Some r ->
  accepts provider region (trace w) (take k reqs) = true ->
  provider (trace w ++ oks region (take k reqs)) (mkCall region r)
  = Some (OtherError "S3UploadFailedError") ->
  upload_dir guess_type provider fs bucket_name dirpath region key w
  = (Raise (OtherError "S3UploadFailedError"),
     mkWorld (trace w ++ oks region (take k reqs)
                ++ [(mkCall region r, Some (OtherError "S3UploadFailedError"))])
             (log w))
  /\ remote_objects
       (trace (snd (upload_dir guess_type provider fs bucket_name dirpath
                      region key w)))
     = foldl apply_event (remote_objects (trace w)) (oks region (take k reqs)).
Proof.
  intros Hc -> Hk Hacc Hfail. destruct dirpath as [|c rest]; [discriminate|].
  injection Hc as <-.
  assert (Hnul : PyStr.has_nul (absolute fs (String c rest) c) = false).
  { destruct (PyStr.has_nul (absolute fs (String c rest) c)) eqn:E; [|reflexivity].
    unfold dir_requests in Hk. now rewrite (walk_paths_nul fs _ E) in Hk. }
  destruct w as [tr lg]. simpl trace in *. simpl log.
  set (reqs := dir_requests guess_type fs bucket_name (absolute fs (String c rest) c)
                 (match key with None => String c rest | Some k0 => k0 end)) in *.
  assert (Hrun : upload_dir guess_type provider fs bucket_name (String c rest)
                   region key (mkWorld tr lg)
                 = (Raise (OtherError "S3UploadFailedError"),
                    mkWorld (tr ++ oks region (take k reqs)
                               ++ [(mkCall region r,
                                    Some (OtherError "S3UploadFailedError"))])
                            lg)).
  { rewrite upload_dir_body by exact Hnul.
    apply try_escapes; [|reflexivity].
    eapply sends_refused; eassumption. }
  split; [exact Hrun|].
  rewrite Hrun. simpl. rewrite app_assoc, !remote_objects_app.
  destruct r; reflexivity.
Qed.

Lemma try_trace (body : M unit) (w : world) :
  trace (snd (try_except_ClientError body w)) = trace (snd (body w)).
Proof.
  unfold try_except_ClientError.
  now destruct (body w) as [[[]|[msg| |cls]] w'].
Qed.

(** C10.  With [key=None] and a relative [dirpath], the key prefix is
    [dirpath] as it was passed, not the directory that is walked: for the
    file at the walked directory followed by [s], the key is [dirpath]
    followed by [s].  When every upload is accepted the function returns
    [True] after uploading every walked path under that key; whatever the
    provider answers, every call it makes has this file and this key, and,
    the working directory being absolute, the key does not begin with the
    walked directory. *)
Theorem upload_dir_default_key (bucket_name dirpath : string) (c0 : ascii)
    (region : option string) (w : world) :
  PyStr.first_char dirpath = Some c0 ->
  c0 <> PyStr.sep ->
  OsPath.wf_fs fs = true ->
  (PyStr.has_nul (OsPath.join (OsPath.fs_cwd fs) dirpath) = false ->
   accepts provider region (trace w)
     (dir_requests guess_type fs bucket_name
        (OsPath.join (OsPath.fs_cwd fs) dirpath) dirpath) = true ->
   upload_dir guess_type provider fs bucket_name dirpath region None w
   = (Return true,
      mkWorld
        (trace w
         ++ map (fun path =>
                   (mkCall region
                      (UploadFile path bucket_name
                         (dirpath
                          +:+ PyStr.drop
                                (String.length (OsPath.join (OsPath.fs_cwd fs) dirpath))
                                path)
                         (extra_args_for guess_type path)), None))
                (OsPath.walk_paths fs (OsPath.join (OsPath.fs_cwd fs) dirpath)))
        (log w)))
  /\ exists evs : list event,
      trace (snd (upload_dir guess_type provider fs bucket_name dirpath region None w))
      = trace w ++ evs
      /\ Forall (fun ev : event =>
                   exists s : string,
                     fst ev
                     = mkCall region
                         (UploadFile (OsPath.join (OsPath.fs_cwd fs) dirpath +:+ s)
                            bucket_name (dirpath +:+ s)
                            (extra_args_for guess_type
                               (OsPath.join (OsPath.fs_cwd fs) dirpath +:+ s)))
                     /\ (PyStr.startswith "/" (OsPath.fs_cwd fs) = true ->
                         PyStr.startswith (OsPath.join (OsPath.fs_cwd fs) dirpath)
                           (dirpath +:+ s) = false))
                evs.
Proof.
  intros Hc Hrel Hwf. destruct dirpath as [|c rest]; [discriminate|].
  injection Hc as <-.
  assert (Hslash : Ascii.eqb "/" c = false).
  { destruct (Ascii.eqb_spec "/" c) as [<-|]; [now destruct Hrel | reflexivity]. }
  assert (Habs : absolute fs (String c rest) c
                 = OsPath.join (OsPath.fs_cwd fs) (String c rest)).
  { unfold absolute. destruct (Ascii.eqb_spec c PyStr.sep); [contradiction | reflexivity]. }
  set (top := OsPath.join (OsPath.fs_cwd fs) (String c rest)) in *.
  assert (Hdiff : forall s, PyStr.startswith "/" (OsPath.fs_cwd fs) = true ->
                            PyStr.startswith top (String c rest +:+ s) = false).
  { intros s Hcwd. unfold top.
    rewrite join_relative by (rewrite startswith_cons, Hslash; reflexivity).
    destruct (startswith_split _ _ Hcwd) as [u ->].
    change (("/" +:+ u) +:+ OsPath.glue ("/" +:+ u) +:+ String c rest)
      with (String "/" (u +:+ OsPath.glue ("/" +:+ u) +:+ String c rest)).
    change (String c rest +:+ s) with (String c (rest +:+ s)).
    now rewrite startswith_cons, Hslash. }
  split.
  - intros Hnul Hacc. rewrite upload_dir_body by (rewrite Habs; exact Hnul).
    rewrite Habs. destruct w as [tr lg]. apply try_returned.
    rewrite sends_accepted by exact Hacc. simpl.
    assert (Heq : oks region (dir_requests guess_type fs bucket_name top (String c rest))
                  = map (fun path =>
                           (mkCall region
                              (UploadFile path bucket_name
                                 (String c rest
                                  +:+ PyStr.drop (String.length top) path)
                                 (extra_args_for guess_type path)), None))
                        (OsPath.walk_paths fs top)).
    { unfold oks, dir_requests. rewrite map_map. apply map_ext_in.
      intros path Hin.
      pose proof (walk_paths_under fs top Hwf) as Hunder.
      rewrite Forall_forall in Hunder.
      destruct (startswith_split _ _ (Hunder path (proj2 (list_elem_of_In _ _) Hin)))
        as [s ->].
      unfold dir_request. now rewrite replace1_prefix, drop_append. }
    now rewrite Heq.
  - destruct (PyStr.has_nul top) eqn:Hnul.
    + exists []. rewrite upload_dir_nul by (rewrite Habs; exact Hnul).
      simpl. rewrite app_nil_r. split; [reflexivity | constructor].
    + rewrite upload_dir_body by (rewrite Habs; exact Hnul).
      rewrite try_trace, Habs.
      destruct (sends_calls provider region
                  (dir_requests guess_type fs bucket_name top (String c rest)) w)
        as (evs & Ht & Hp).
      exists evs. split; [exact Ht|].
      set (P := fun c1 : call =>
                  exists s : string,
                    c1 = mkCall region
                           (UploadFile (top +:+ s) bucket_name (String c rest +:+ s)
                              (extra_args_for guess_type (top +:+ s)))
                    /\ (PyStr.startswith "/" (OsPath.fs_cwd fs) = true ->
                        PyStr.startswith top (String c rest +:+ s) = false)).
      change (Forall (fun ev : event => P (fst ev)) evs).
      apply (proj1 (Forall_map fst P evs)).
      destruct Hp as [tl Hp]. 
      assert (Hall : Forall P (map (mkCall region)
                                 (dir_requests guess_type fs bucket_name top
                                    (String c rest)))).
      { apply (proj2 (Forall_map (mkCall region) P _)). unfold dir_requests.
        apply (proj2 (Forall_map (dir_request guess_type bucket_name top (String c rest))
                        (fun r => P (mkCall region r)) _)).
        eapply Forall_impl; [apply (walk_paths_under fs top Hwf)|].
        intros path Hpath. simpl in Hpath.
        destruct (startswith_split _ _ Hpath) as [s ->].
        exists s. unfold dir_request. rewrite replace1_prefix.
        split; [reflexivity | now apply Hdiff]. }
      rewrite Hp in Hall. now apply Forall_app in Hall as [Hall _].
Qed.

Lemma accepts_all client (tr : list event) (rs : list request) :
  (forall tr' c, provider tr' c = None) -> accepts provider client tr rs = true.
Proof.
  intros Hp. revert tr; induction rs as [|r rs IH]; intros tr; simpl; [reflexivity|].
  rewrite Hp. apply IH.
Qed.

(** C1 (amended).  For bucket [b], no region, key prefix [""] and
    [./site] a directory holding [index.html] and [css/style.css]: the
    root that is replaced is the working directory joined with [./site],
    which does not end with a separator, so the separator after it stays
    in the key.  The two uploads have the keys [/index.html] and
    [/css/style.css]. *)
Theorem upload_site_keys (w : world) :
  OsPath.resolve fs "./site" = Some Scenario.site ->
  OsPath.resolve fs (OsPath.join (OsPath.fs_cwd fs) "./site") = Some Scenario.site ->
  (forall tr c, provider tr c = None) ->
  upload guess_type provider fs "b" "./site" None (Some "") w
  = (Return true,
     mkWorld
       (trace w ++ oks None
          [ UploadFile (OsPath.join (OsPath.fs_cwd fs) "./site" +:+ "/index.html")
              "b" "/index.html"
              (extra_args_for guess_type
                 (OsPath.join (OsPath.fs_cwd fs) "./site" +:+ "/index.html"));
            UploadFile (OsPath.join (OsPath.fs_cwd fs) "./site" +:+ "/css/style.css")
              "b" "/css/style.css"
              (extra_args_for guess_type
                 (OsPath.join (OsPath.fs_cwd fs) "./site" +:+ "/css/style.css")) ])
       (log w)).
Proof.
  intros Hrel Habs Hp. unfold upload, OsPath.isfile, OsPath.isdir.
  rewrite Hrel. simpl.
  rewrite upload_dir_body by exact (resolve_no_nul fs _ _ Habs).
  change (absolute fs "./site" ".") with (OsPath.join (OsPath.fs_cwd fs) "./site").
  set (top := OsPath.join (OsPath.fs_cwd fs) "./site").
  assert (Htop : exists x, top = x +:+ "./site").
  { exists (OsPath.fs_cwd fs +:+ OsPath.glue (OsPath.fs_cwd fs)).
    unfold top. rewrite join_relative by reflexivity. now rewrite append_assoc. }
  destruct Htop as [x Hx].
  assert (J1 : OsPath.join top "index.html" = top +:+ "/index.html").
  { rewrite Hx. now apply join_after. }
  assert (J2 : OsPath.join (OsPath.join top "css") "style.css" = top +:+ "/css/style.css").
  { rewrite Hx. rewrite (join_after x "./site" "css") by easy.
    rewrite append_assoc.
    change ("./site" +:+ "/" +:+ "css") with "./site/css".
    rewrite (join_after x "./site/css" "style.css") by easy.
    now rewrite !append_assoc. }
  assert (Hreqs : dir_requests guess_type fs "b" top ""
                  = [ UploadFile (top +:+ "/index.html") "b" "/index.html"
                        (extra_args_for guess_type (top +:+ "/index.html"));
                      UploadFile (top +:+ "/css/style.css") "b" "/css/style.css"
                        (extra_args_for guess_type (top +:+ "/css/style.css")) ]).
  { unfold dir_requests, OsPath.walk_paths, OsPath.walk. fold top in Habs.
    rewrite (resolve_no_nul fs _ _ Habs), Habs. simpl. rewrite J1, J2. unfold dir_request.
    now rewrite !replace1_prefix. }
  rewrite Hreqs. apply try_returned. destruct w as [tr lg].
  apply sends_accepted. now apply accepts_all.
Qed.

End Claims.

(** ** The scenarios *)

Import Scenario.


(** C1, as the specification states it, fails on the machine of the
    scenario: the keys carry a leading separator. *)
Lemma upload_site_keys_counterexample :
  uploaded_keys
    (trace (snd (upload guess_common always_ok home_fs "b" "./site" None (Some "") w0)))
  = ["/index.html"; "/css/style.css"]
  /\ uploaded_keys
       (trace (snd (upload guess_common always_ok home_fs "b" "./site" None (Some "") w0)))
     <> ["index.html"; "css/style.css"].
Proof. split; [reflexivity | discriminate]. Qed.

Lemma upload_site_keys_witness :
  upload guess_common always_ok home_fs "b" "./site" None (Some "") w0
  = (Return true,
     mkWorld
       [ (mkCall None (UploadFile "/home/user/./site/index.html" "b" "/index.html"
                         [("ContentType", "text/html")]), None);
         (mkCall None (UploadFile "/home/user/./site/css/style.css" "b" "/css/style.css"
                         [("ContentType", "text/css")]), None) ]
       []).
Proof.
  apply (upload_site_keys guess_common always_ok home_fs w0); reflexivity.
Defined.

(** With the directory written [./site/], the same run gives the keys
    without the separator. *)
Example upload_site_trailing_separator :
  uploaded_keys
    (trace (snd (upload guess_common always_ok home_fs "b" "./site/" None (Some "") w0)))
  = ["index.html"; "css/style.css"].
Proof. reflexivity. Qed.

Lemma upload_unsupported_path_witness :
  OsPath.isfile home_fs "pipe" = false
  /\ OsPath.isdir home_fs "pipe" = false
  /\ upload guess_common always_ok home_fs "b" "pipe" None None w0
     = (Return false,
        mkWorld [] ["Error: unsupported special file (socket, FIFO, device file)"]).
Proof.
  split; [reflexivity|]. split; [reflexivity|].
  apply (upload_unsupported_path guess_common always_ok home_fs "b" "pipe" None None w0);
    reflexivity.
Defined.

Lemma upload_file_content_type_witness :
  exists k outcome,
    trace (snd (upload_file guess_common always_ok "b" "index.html" None None w0))
    = [ (mkCall None (UploadFile "index.html" "b" k [("ContentType", "text/html")]),
         outcome) ]
  /\ exists k' outcome',
    trace (snd (upload_file guess_common always_ok "b" "Makefile" None None w0))
    = [ (mkCall None (UploadFile "Makefile" "b" k' []), outcome') ].
Proof.
  destruct (upload_file_content_type guess_common always_ok "b" "index.html" None None w0)
    as (k & extra & outcome & Ht & Hsome & _).
  destruct (upload_file_content_type guess_common always_ok "b" "Makefile" None None w0)
    as (k' & extra' & outcome' & Ht' & _ & Hnone).
  exists k, outcome.
  rewrite (Hsome "text/html" eq_refl ltac:(discriminate)) in Ht.
  rewrite (Hnone eq_refl) in Ht'.
  split; [exact Ht|]. now exists k', outcome'.
Defined.

Lemma refused_upload_escapes_witness :
  upload_file guess_common (denies_key "notes.txt") "b" "notes.txt" None None w0
  = (Raise (OtherError "S3UploadFailedError"),
     mkWorld [ (mkCall None (UploadFile "notes.txt" "b" "notes.txt"
                               [("ContentType", "text/plain")]),
                Some (OtherError "S3UploadFailedError")) ]
             [])
  /\ upload guess_common (denies_key "notes.txt") home_fs "b" "notes.txt" None None w0
     = (Raise (OtherError "S3UploadFailedError"),
        mkWorld [ (mkCall None (UploadFile "notes.txt" "b" "notes.txt"
                                  [("ContentType", "text/plain")]),
                   Some (OtherError "S3UploadFailedError")) ]
                []).
Proof.
  destruct (refused_upload_escapes guess_common (denies_key "notes.txt") home_fs
              "b" "notes.txt" None None w0 (OtherError "S3UploadFailedError")
              eq_refl eq_refl) as [Hfile Hupload].
  split; [exact Hfile | exact (Hupload eq_refl)].
Defined.

Lemma upload_dir_refused_upload_raises_witness :
  upload_dir guess_common (denies_key "/css/style.css") home_fs
    "b" "./site" None (Some "") w0
  = (Raise (OtherError "S3UploadFailedError"),
     mkWorld
       [ (mkCall None (UploadFile "/home/user/./site/index.html" "b" "/index.html"
                         [("ContentType", "text/html")]), None);
         (mkCall None (UploadFile "/home/user/./site/css/style.css" "b" "/css/style.css"
                         [("ContentType", "text/css")]),
          Some (OtherError "S3UploadFailedError")) ]
       [])
  /\ remote_objects
       (trace (snd (upload_dir guess_common (denies_key "/css/style.css") home_fs
                      "b" "./site" None (Some "") w0)))
     = <[("b", "/index.html") :=
           mkObject "/home/user/./site/index.html" (Some "text/html")]> ∅.
Proof.
  exact (upload_dir_refused_upload_raises guess_common (denies_key "/css/style.css")
           home_fs "b" "./site" "." None (Some "") w0 _ 1 _
           eq_refl eq_refl eq_refl eq_refl eq_refl).
Defined.



Lemma upload_dir_default_key_witness :
  upload_dir guess_common always_ok home_fs "b" "site" None None w0
  = (Return true,
     mkWorld
       [ (mkCall None (UploadFile "/home/user/site/index.html" "b" "site/index.html"
                         [("ContentType", "text/html")]), None);
         (mkCall None (UploadFile "/home/user/site/css/style.css" "b"
                         "site/css/style.css" [("ContentType", "text/css")]), None) ]
       []).
Proof.
  assert (Hrel : "s"%char <> PyStr.sep) by discriminate.
  exact (proj1 (upload_dir_default_key guess_common always_ok home_fs "b" "site" "s"%char
                  None w0 eq_refl Hrel eq_refl) eq_refl eq_refl).
Defined.

(** * Further properties of the script *)

(** ** The shape of walked paths *)

Section WalkFacts.

Lemma node_paths_Dir (top : string) (es : list (string * OsPath.node)) :
  OsPath.node_paths top (OsPath.Dir es)
  = map (OsPath.join top) (OsPath.filenames es)
    ++ flat_map (fun e => OsPath.node_paths (OsPath.join top (fst e)) (snd e)) es.
Proof.
  unfold OsPath.node_paths. simpl. f_equal.
  induction es as [|[name sub] es IH]; [reflexivity|].
  simpl. rewrite flat_map_app. now f_equal.
Qed.

Lemma node_paths_not_dir (top : string) (n : OsPath.node) :
  OsPath.is_dir_node n = false -> OsPath.node_paths top n = [].
Proof. now destruct n. Qed.

Lemma walk_paths_node (fs : OsPath.filesystem) (top : string) :
  OsPath.walk_paths fs top
  = match OsPath.resolve fs top with
    | Some n => OsPath.node_paths top n
    | None => []
    end.
Proof.
  unfold OsPath.walk_paths, OsPath.walk, OsPath.node_paths.
  destruct (PyStr.has_nul top) eqn:Hnul.
  - destruct (OsPath.resolve fs top) as [n|] eqn:E; [|reflexivity].
    apply resolve_no_nul in E. congruence.
  - now destruct (OsPath.resolve fs top).
Qed.

Lemma has_sep_endswith (s : string) :
  OsPath.has_sep s = false -> PyStr.endswith "/" s = false.
Proof.
  induction s as [|c s IH]; [reflexivity|]. simpl OsPath.has_sep.
  destruct (Ascii.eqb_spec c PyStr.sep) as [|Hc]; [discriminate|]. intros Hs.
  cbn [PyStr.endswith].
  destruct (String.eqb_spec "/" (String c s)) as [E|_]; [|now apply IH].
  injection E as E _. now destruct Hc.
Qed.

Lemma name_ok_parts (name : string) :
  OsPath.name_ok name = true -> name <> "" /\ OsPath.has_sep name = false.
Proof.
  unfold OsPath.name_ok. rewrite andb_true_iff, !negb_true_iff.
  intros [Hne Hs]. split; [|exact Hs]. now apply String.eqb_neq.
Qed.

(** After a name, [join] puts a separator. *)
Lemma glue_after_name (x name : string) :
  OsPath.name_ok name = true -> OsPath.glue (x +:+ name) = "/".
Proof.
  intros Hn. destruct (name_ok_parts _ Hn) as [Hne Hs]. unfold OsPath.glue.
  rewrite (endswith_sep_append x name Hne (has_sep_endswith _ Hs)).
  destruct (String.eqb_spec (x +:+ name) "") as [E|_]; [|reflexivity].
  now apply append_nonempty in E.
Qed.

Lemma name_then_relative (name s : string) :
  OsPath.name_ok name = true -> PyStr.startswith "/" (name +:+ s) = false.
Proof.
  intros Hn. pose proof (name_ok_relative _ Hn) as H.
  destruct name as [|c name]; [discriminate|].
  change (String c name +:+ s) with (String c (name +:+ s)).
  rewrite startswith_cons in *. now destruct (Ascii.eqb "/" c).
Qed.

(** Every walked path is the directory walked, what [join] puts after it,
    and a relative path. *)
Lemma node_paths_shape (n : OsPath.node) :
  OsPath.wf_node n = true ->
  forall top,
    Forall (fun path => exists t, path = top +:+ OsPath.glue top +:+ t
                                  /\ PyStr.startswith "/" t = false)
           (OsPath.node_paths top n).
Proof.
  induction n as [| |es IH] using node_nested_ind; intros Hwf top;
    [constructor | constructor |].
  rewrite node_paths_Dir. apply Forall_app. split.
  - apply Forall_map. eapply Forall_impl; [now apply filenames_ok|].
    intros name Hn. simpl in Hn. exists name.
    split; [apply join_relative|]; now apply name_ok_relative.
  - apply wf_node_Dir in Hwf.
    induction es as [|[name sub] es IHes]; [constructor|].
    inversion IH as [|? ? Hsub Hes]; subst.
    inversion Hwf as [|? ? [Hn Hs] Hwfes]; subst. simpl in *.
    apply Forall_app. split; [|now apply IHes].
    eapply Forall_impl; [apply (Hsub Hs)|].
    intros path (t & -> & Ht). simpl.
    exists (name +:+ OsPath.glue (OsPath.join top name) +:+ t).
    split; [|now apply name_then_relative].
    rewrite (join_relative top name) by now apply name_ok_relative.
    now rewrite !append_assoc.
Qed.

Lemma walk_paths_shape (fs : OsPath.filesystem) (top : string) :
  OsPath.wf_fs fs = true ->
  Forall (fun path => exists t, path = top +:+ OsPath.glue top +:+ t
                                /\ PyStr.startswith "/" t = false)
         (OsPath.walk_paths fs top).
Proof.
  intros Hwf. rewrite walk_paths_node.
  destruct (OsPath.resolve fs top) as [n|] eqn:E; [|constructor].
  apply node_paths_shape. now apply (resolve_wf fs top).
Qed.

End WalkFacts.

(** ** More on the operations *)

Lemma endswith_append (x s : string) :
  s <> "" -> PyStr.endswith "/" (x +:+ s) = PyStr.endswith "/" s.
Proof.
  intros Hne. induction x as [|a x IH]; [reflexivity|].
  change (String a x +:+ s) with (String a (x +:+ s)).
  cbn [PyStr.endswith].
  destruct (String.eqb_spec "/" (String a (x +:+ s))) as [E|_]; [|exact IH].
  injection E as _ E. symmetry in E. now apply append_nonempty in E.
Qed.

Lemma Forall_prefix {A} (P : A -> Prop) (l l' : list A) :
  l' `prefix_of` l -> Forall P l -> Forall P l'.
Proof. intros [k ->] H. now apply Forall_app in H. Qed.

Section Coverage.

Variable guess_type : string -> option string.
Variable provider : list event -> call -> option exn.
Variable fs : OsPath.filesystem.

(** The directory walked ends with a separator exactly when [dirpath]
    does. *)
Lemma glue_absolute (dirpath : string) (c0 : ascii) :
  PyStr.first_char dirpath = Some c0 ->
  OsPath.glue (absolute fs dirpath c0)
  = if PyStr.endswith "/" dirpath then "" else "/".
Proof.
  intros Hc. destruct dirpath as [|c rest]; [discriminate|]. injection Hc as <-.
  unfold absolute.
  destruct (Ascii.eqb_spec c PyStr.sep) as [->|Hrel]; simpl negb; cbv iota.
  - unfold OsPath.glue. now destruct (PyStr.endswith "/" (String PyStr.sep rest)).
  - assert (Hs : PyStr.startswith "/" (String c rest) = false).
    { rewrite startswith_cons.
      destruct (Ascii.eqb_spec "/" c) as [<-|]; [now destruct Hrel | reflexivity]. }
    rewrite (join_relative _ _ Hs), <- append_assoc. unfold OsPath.glue at 1.
    rewrite endswith_append by discriminate.
    destruct (String.eqb_spec
                ((OsPath.fs_cwd fs +:+ OsPath.glue (OsPath.fs_cwd fs)) +:+ String c rest)
                "") as [E|_].
    + apply append_nonempty in E; [contradiction | discriminate].
    + reflexivity.
Qed.

(** The calls of [upload_dir] on a well-formed tree. *)
Lemma upload_dir_events (bucket_name dirpath : string) (c0 : ascii)
    (region key : option string) (w : world) :
  PyStr.first_char dirpath = Some c0 ->
  OsPath.wf_fs fs = true ->
  exists evs : list event,
    trace (snd (upload_dir guess_type provider fs bucket_name dirpath region key w))
    = trace w ++ evs
    /\ Forall (fun ev : event =>
                 exists t : string,
                   PyStr.startswith "/" t = false
                   /\ fst ev
                      = mkCall region
                          (UploadFile
                             (absolute fs dirpath c0
                              +:+ (if PyStr.endswith "/" dirpath then "" else "/") +:+ t)
                             bucket_name
                             (match key with None => dirpath | Some k => k end
                              +:+ (if PyStr.endswith "/" dirpath then "" else "/") +:+ t)
                             (extra_args_for guess_type
                                (absolute fs dirpath c0
                                 +:+ (if PyStr.endswith "/" dirpath then "" else "/")
                                 +:+ t))))
              evs.
Proof.
  intros Hc Hwf. pose proof (glue_absolute dirpath c0 Hc) as Hg.
  destruct dirpath as [|c rest]; [discriminate|]. injection Hc as <-.
  destruct (PyStr.has_nul (absolute fs (String c rest) c)) eqn:Hnul.
  { exists []. rewrite upload_dir_nul by exact Hnul.
    simpl. rewrite app_nil_r. split; [reflexivity | constructor]. }
  rewrite upload_dir_body by exact Hnul. rewrite try_trace.
  set (root := absolute fs (String c rest) c) in *.
  set (keyp := match key with None => String c rest | Some k => k end).
  destruct (sends_calls provider region (dir_requests guess_type fs bucket_name root keyp) w)
    as (evs & Ht & Hp).
  exists evs. split; [exact Ht|].
  set (sp := if PyStr.endswith "/" (String c rest) then "" else "/") in *.
  set (P := fun c1 : call =>
              exists t : string,
                PyStr.startswith "/" t = false
                /\ c1 = mkCall region
                          (UploadFile (root +:+ sp +:+ t) bucket_name (keyp +:+ sp +:+ t)
                             (extra_args_for guess_type (root +:+ sp +:+ t)))).
  change (Forall (fun ev : event => P (fst ev)) evs).
  apply (proj1 (Forall_map fst P evs)).
  eapply Forall_prefix; [exact Hp|].
  apply (proj2 (Forall_map (mkCall region) P _)).
  unfold dir_requests.
  apply (proj2 (Forall_map (dir_request guess_type bucket_name root keyp)
                  (fun r => P (mkCall region r)) _)).
  eapply Forall_impl; [apply (walk_paths_shape fs root Hwf)|].
  intros path (t & -> & Ht'). simpl. exists t. split; [exact Ht'|].
  unfold dir_request. rewrite replace1_prefix, Hg. reflexivity.
Qed.

(** X1.  On a well-formed tree, every upload [upload_dir] sends is for a
    path made of the directory walked, a separator unless [dirpath] ends
    with one, and a relative path; its key is the key prefix followed by
    the same separator and relative path; its content type is guessed from
    the whole path; and it goes through the client of the region given.
    The replacement never touches anything but the leading directory. *)
Theorem upload_dir_key_shape (bucket_name dirpath : string) (c0 : ascii)
    (region key : option string) (w : world) :
  PyStr.first_char dirpath = Some c0 ->
  OsPath.wf_fs fs = true ->
  exists evs : list event,
    trace (snd (upload_dir guess_type provider fs bucket_name dirpath region key w))
    = trace w ++ evs
    /\ Forall (fun ev : event =>
                 exists t : string,
                   PyStr.startswith "/" t = false
                   /\ fst ev
                      = mkCall region
                          (UploadFile
                             (absolute fs dirpath c0
                              +:+ (if PyStr.endswith "/" dirpath then "" else "/") +:+ t)
                             bucket_name
                             (match key with None => dirpath | Some k => k end
                              +:+ (if PyStr.endswith "/" dirpath then "" else "/") +:+ t)
                             (extra_args_for guess_type
                                (absolute fs dirpath c0
                                 +:+ (if PyStr.endswith "/" dirpath then "" else "/")
                                 +:+ t))))
              evs.
Proof. exact (upload_dir_events bucket_name dirpath c0 region key w). Qed.

(** X2.  With the empty key prefix, as the script calls it, the keys are
    relative exactly when [dirpath] is written with a trailing separator:
    then no key begins with a separator; without it every key does. *)
Theorem upload_dir_empty_prefix_keys (bucket_name dirpath : string) (c0 : ascii)
    (region : option string) (w : world) :
  PyStr.first_char dirpath = Some c0 ->
  OsPath.wf_fs fs = true ->
  exists evs : list event,
    trace (snd (upload_dir guess_type provider fs bucket_name dirpath region (Some "") w))
    = trace w ++ evs
    /\ Forall (fun ev : event =>
                 exists k, request_key (req (fst ev)) = Some k
                           /\ PyStr.startswith "/" k
                              = negb (PyStr.endswith "/" dirpath))
              evs.
Proof.
  intros Hc Hwf.
  destruct (upload_dir_events bucket_name dirpath c0 region (Some "") w Hc Hwf)
    as (evs & Ht & Hall).
  exists evs. split; [exact Ht|].
  eapply Forall_impl; [exact Hall|].
  intros ev (t & Hrel & ->). simpl.
  destruct (PyStr.endswith "/" dirpath); eexists; (split; [reflexivity|]).
  - exact Hrel.
  - reflexivity.
Qed.

(** X3.  With an absolute [dirpath] and no key, every object is stored
    under the full local path of its file. *)
Theorem upload_dir_absolute_default_key (bucket_name dirpath : string)
    (region : option string) (w : world) :
  PyStr.first_char dirpath = Some PyStr.sep ->
  OsPath.wf_fs fs = true ->
  exists evs : list event,
    trace (snd (upload_dir guess_type provider fs bucket_name dirpath region None w))
    = trace w ++ evs
    /\ Forall (fun ev : event =>
                 exists path extra,
                   req (fst ev) = UploadFile path bucket_name path extra
                   /\ PyStr.startswith dirpath path = true)
              evs.
Proof.
  intros Hc Hwf.
  destruct (upload_dir_events bucket_name dirpath PyStr.sep region None w Hc Hwf)
    as (evs & Ht & Hall).
  exists evs. split; [exact Ht|].
  eapply Forall_impl; [exact Hall|].
  intros ev (t & Hrel & ->). simpl.
  assert (Habs : absolute fs dirpath PyStr.sep = dirpath) by reflexivity.
  rewrite Habs. do 2 eexists. split; [reflexivity | apply startswith_append].
Qed.


(** X13.  Called on a non-empty path whose directory to walk holds a NUL
    character, [upload_dir] raises the [ValueError] of [os.walk], which
    its handler does not catch: no call is made and nothing is logged.
    Through [upload] the same path is reported as unsupported, with
    [False]. *)
Theorem upload_dir_nul_character (bucket_name dirpath : string) (c0 : ascii)
    (region key : option string) (w : world) :
  PyStr.first_char dirpath = Some c0 ->
  PyStr.has_nul dirpath = true ->
  upload_dir guess_type provider fs bucket_name dirpath region key w
  = (Raise (OtherError "ValueError"), w)
  /\ upload guess_type provider fs bucket_name dirpath region key w
     = (Return false,
        mkWorld (trace w)
          (log w ++ ["Error: unsupported special file (socket, FIFO, device file)"])).
Proof.
  intros Hc Hnul. destruct dirpath as [|c rest]; [discriminate|].
  injection Hc as <-. split.
  - apply upload_dir_nul. unfold absolute.
    destruct (negb (Ascii.eqb c PyStr.sep)) eqn:Hrel; [|exact Hnul].
    unfold OsPath.join.
    destruct (PyStr.startswith "/" (String c rest)); [exact Hnul|].
    destruct (_ || _); rewrite !has_nul_append, Hnul; now rewrite ?orb_true_r.
  - assert (Hres : OsPath.resolve fs (String c rest) = None).
    { destruct (OsPath.resolve fs (String c rest)) as [n|] eqn:E; [|reflexivity].
      apply resolve_no_nul in E. congruence. }
    unfold upload, OsPath.isfile, OsPath.isdir. now rewrite Hres.
Qed.

End Coverage.

(** ** Every file once *)

Section OnceFacts.

Lemma append_cancel (x a b : string) : x +:+ a = x +:+ b -> a = b.
Proof.
  induction x as [|c x IH]; [easy|].
  change (String c (x +:+ a) = String c (x +:+ b) -> a = b).
  intros [= E]. now apply IH.
Qed.

Lemma has_sep_after (d t : string) : OsPath.has_sep (d +:+ "/" +:+ t) = true.
Proof.
  induction d as [|c d IH]; [reflexivity|].
  change (String c d +:+ "/" +:+ t) with (String c (d +:+ "/" +:+ t)).
  simpl. now destruct (Ascii.eqb c PyStr.sep).
Qed.

(** A path splits at its first separator in one way only. *)
Lemma first_component_unique (a b s s' : string) :
  OsPath.has_sep a = false -> OsPath.has_sep b = false ->
  a +:+ "/" +:+ s = b +:+ "/" +:+ s' -> a = b.
Proof.
  revert b. induction a as [|c a IH]; intros [|c' b] Ha Hb E.
  - reflexivity.
  - change (String "/" s = String c' (b +:+ "/" +:+ s')) in E.
    injection E as <- _. discriminate Hb.
  - change (String c (a +:+ "/" +:+ s) = String "/" s') in E.
    injection E as -> _. discriminate Ha.
  - change (String c (a +:+ "/" +:+ s) = String c' (b +:+ "/" +:+ s')) in E.
    injection E as <- E. simpl in Ha, Hb.
    destruct (Ascii.eqb c PyStr.sep); [discriminate|].
    f_equal. now apply (IH b).
Qed.

Lemma mem_name_In (name : string) (l : list string) :
  OsPath.mem_name name l = true <-> In name l.
Proof.
  induction l as [|x l IH]; simpl; [easy|].
  rewrite orb_true_iff, IH, String.eqb_eq. tauto.
Qed.

Lemma distinct_NoDup (l : list string) : OsPath.distinct l = true -> NoDup l.
Proof.
  induction l as [|x l IH]; simpl; [constructor|].
  rewrite andb_true_iff, negb_true_iff. intros [Hx Hl].
  apply NoDup_cons. split; [|now apply IH].
  rewrite list_elem_of_In, <- mem_name_In. now rewrite Hx.
Qed.

Lemma unique_names_Dir (es : list (string * OsPath.node)) :
  OsPath.unique_names (OsPath.Dir es) = true
  <-> OsPath.distinct (map fst es) = true
      /\ Forall (fun e => OsPath.unique_names (snd e) = true) es.
Proof.
  change (OsPath.unique_names (OsPath.Dir es))
    with (OsPath.distinct (map fst es)
          && (fix unique_entries (l : list (string * OsPath.node)) : bool :=
                match l with
                | [] => true
                | (_, sub) :: l' => OsPath.unique_names sub && unique_entries l'
                end) es).
  rewrite andb_true_iff. apply and_iff_compat_l.
  induction es as [|[name sub] es IH]; [split; [constructor | reflexivity]|].
  rewrite andb_true_iff, IH, Forall_cons. reflexivity.
Qed.

Lemma NoDup_map_on {A B} (f : A -> B) (l : list A) :
  (forall x y, In x l -> In y l -> f x = f y -> x = y) ->
  NoDup l -> NoDup (map f l).
Proof.
  induction l as [|a l IH]; intros Hinj Hnd; [constructor|].
  apply NoDup_cons in Hnd as [Ha Hl]. simpl. apply NoDup_cons. split.
  - rewrite list_elem_of_In, in_map_iff. intros (y & E & Hy).
    apply Ha. rewrite list_elem_of_In.
    rewrite (Hinj a y); [exact Hy | now left | now right | now symmetry].
  - apply IH; [|exact Hl]. intros x y Hx Hy. apply Hinj; now right.
Qed.

Lemma filenames_In (name : string) (es : list (string * OsPath.node)) :
  In name (OsPath.filenames es) -> In name (map fst es).
Proof.
  unfold OsPath.filenames. rewrite !in_map_iff.
  intros (e & <- & He). exists e. split; [reflexivity|].
  apply list_elem_of_In in He. apply list_elem_of_filter in He as [_ He].
  now apply list_elem_of_In.
Qed.

Lemma filenames_NoDup (es : list (string * OsPath.node)) :
  NoDup (map fst es) -> NoDup (OsPath.filenames es).
Proof.
  unfold OsPath.filenames.
  induction es as [|[name sub] es IH]; simpl; [constructor|].
  intros Hnd. apply NoDup_cons in Hnd as [Hn Hes].
  rewrite filter_cons. simpl. case_decide; [|now apply IH].
  simpl. apply NoDup_cons. split; [|now apply IH].
  intros Hin. apply Hn. apply list_elem_of_In, (filenames_In name es).
  now apply list_elem_of_In.
Qed.

(** The paths found below the sub-directories of [top] begin with one of
    the listed names followed by a separator. *)
Lemma subdir_paths_form (top : string) (es : list (string * OsPath.node)) (path : string) :
  Forall (fun e => OsPath.name_ok (fst e) = true /\ OsPath.wf_node (snd e) = true) es ->
  In path (flat_map (fun e => OsPath.node_paths (OsPath.join top (fst e)) (snd e)) es) ->
  exists d t, In d (map fst es)
              /\ path = top +:+ OsPath.glue top +:+ d +:+ "/" +:+ t.
Proof.
  intros Hwf. rewrite in_flat_map. intros ([d sub] & He & Hp). simpl in Hp.
  rewrite Forall_forall in Hwf. destruct (Hwf _ (proj2 (list_elem_of_In _ _) He)) as [Hd Hsub].
  simpl in Hd, Hsub.
  pose proof (node_paths_shape sub Hsub (OsPath.join top d)) as Hshape.
  rewrite Forall_forall in Hshape.
  destruct (Hshape _ (proj2 (list_elem_of_In _ _) Hp)) as (t & -> & _).
  exists d, t. split; [apply in_map_iff; now exists (d, sub)|].
  rewrite (join_relative top d) by now apply name_ok_relative.
  rewrite <- (append_assoc top), (glue_after_name _ d Hd).
  now rewrite !append_assoc.
Qed.

(** On a well-formed tree whose directories list no name twice, the walk
    yields no path twice. *)
Lemma node_paths_NoDup (n : OsPath.node) :
  OsPath.wf_node n = true -> OsPath.unique_names n = true ->
  forall top, NoDup (OsPath.node_paths top n).
Proof.
  induction n as [| |es IH] using node_nested_ind; intros Hwf Hun top;
    [constructor | constructor |].
  apply wf_node_Dir in Hwf. apply unique_names_Dir in Hun as [Hdist Hun].
  apply distinct_NoDup in Hdist.
  rewrite node_paths_Dir. apply NoDup_app. split; [|split].
  - apply NoDup_map_on; [|now apply filenames_NoDup].
    intros x y Hx Hy. pose proof (filenames_ok es (proj2 (wf_node_Dir es) Hwf)) as Hok.
    rewrite Forall_forall in Hok.
    rewrite !join_relative
      by (apply name_ok_relative, Hok, list_elem_of_In; assumption).
    intros E. now do 2 apply append_cancel in E.
  - intros path Hfile Hsub. apply list_elem_of_In in Hfile, Hsub.
    apply in_map_iff in Hfile as (name & <- & Hname).
    destruct (subdir_paths_form top es _ Hwf Hsub) as (d & t & _ & E).
    pose proof (filenames_ok es (proj2 (wf_node_Dir es) Hwf)) as Hok.
    rewrite Forall_forall in Hok.
    pose proof (Hok _ (proj2 (list_elem_of_In _ _) Hname)) as Hn.
    rewrite (join_relative top name) in E by now apply name_ok_relative.
    do 2 apply append_cancel in E.
    destruct (name_ok_parts _ Hn) as [_ Hs]. rewrite E in Hs.
    now rewrite has_sep_after in Hs.
  - induction es as [|[name sub] es IHes]; [constructor|].
    inversion IH as [|? ? Hsub Hes]; subst.
    inversion Hwf as [|? ? [Hn Hs] Hwfes]; subst.
    inversion Hun as [|? ? Hu Hunes]; subst.
    simpl in Hdist. apply NoDup_cons in Hdist as [Hfresh Hdist]. simpl in *.
    apply NoDup_app. split; [now apply Hsub|]. split; [|now apply IHes].
    intros path Hp Hrest. apply list_elem_of_In in Hp, Hrest.
    destruct (subdir_paths_form top [(name, sub)] path) as (d & t & Hd & E).
    { constructor; [now split | constructor]. }
    { simpl. now rewrite app_nil_r. }
    destruct Hd as [<-|[]]. simpl in E.
    destruct (subdir_paths_form top es path Hwfes Hrest) as (d' & t' & Hd' & E').
    rewrite E in E'. do 2 apply append_cancel in E'.
    assert (d' = name) as ->.
    { symmetry. apply (first_component_unique name d' t t').
      - now destruct (name_ok_parts _ Hn).
      - rewrite Forall_forall in Hwfes. apply in_map_iff in Hd' as ([d0 s0] & <- & H0).
        destruct (Hwfes _ (proj2 (list_elem_of_In _ _) H0)) as [Hn0 _].
        now destruct (name_ok_parts _ Hn0).
      - exact E'. }
    apply Hfresh. now apply list_elem_of_In.
Qed.

(** The walk yields as many paths as the tree has entries that are not
    directories. *)
Lemma node_paths_length (n : OsPath.node) :
  forall top, length (OsPath.node_paths top n) = OsPath.count_files n.
Proof.
  induction n as [| |es IH] using node_nested_ind; intros top; [reflexivity..|].
  rewrite node_paths_Dir, length_app, length_map. unfold OsPath.filenames.
  rewrite length_map.
  induction es as [|[name sub] es IHes]; [reflexivity|].
  inversion IH as [|? ? Hsub Hes]; subst. simpl in Hsub.
  change (OsPath.count_files (OsPath.Dir ((name, sub) :: es)))
    with ((if OsPath.is_dir_node sub then OsPath.count_files sub else 1)
          + OsPath.count_files (OsPath.Dir es)).
  rewrite <- (IHes Hes). rewrite filter_cons. simpl. rewrite length_app.
  case_decide as Hd; simpl in Hd.
  - rewrite Hd, (node_paths_not_dir _ sub Hd). simpl. lia.
  - destruct (OsPath.is_dir_node sub); [|contradiction]. rewrite Hsub. lia.
Qed.

End OnceFacts.

Lemma NoDup_prefix {A} (l l' : list A) : l' `prefix_of` l -> NoDup l -> NoDup l'.
Proof. intros [k ->] H. now apply NoDup_app in H as [H _]. Qed.

Lemma prefix_map {A B} (f : A -> B) (l l' : list A) :
  l' `prefix_of` l -> map f l' `prefix_of` map f l.
Proof. intros [k ->]. rewrite map_app. now eexists. Qed.

Section Completeness.

Variable guess_type : string -> option string.
Variable provider : list event -> call -> option exn.
Variable fs : OsPath.filesystem.

(** X5.  On a well-formed directory that lists no name twice, whatever
    the provider answers, [upload_dir] sends no local file twice and no
    key twice: within one run no upload overwrites another. *)
Theorem upload_dir_no_file_twice (bucket_name dirpath : string) (c0 : ascii)
    (region key : option string) (w : world) (n : OsPath.node) :
  PyStr.first_char dirpath = Some c0 ->
  OsPath.resolve fs (absolute fs dirpath c0) = Some n ->
  OsPath.wf_node n = true ->
  OsPath.unique_names n = true ->
  exists evs : list event,
    trace (snd (upload_dir guess_type provider fs bucket_name dirpath region key w))
    = trace w ++ evs
    /\ Forall (fun ev : event => exists f b k x, req (fst ev) = UploadFile f b k x) evs
    /\ NoDup (map (fun ev : event => request_filename (req (fst ev))) evs)
    /\ NoDup (map (fun ev : event => request_key (req (fst ev))) evs).
Proof.
  intros Hc Hres Hwf Hun. destruct dirpath as [|c rest]; [discriminate|].
  injection Hc as <-.
  rewrite upload_dir_body by exact (resolve_no_nul fs _ _ Hres). rewrite try_trace.
  set (root := absolute fs (String c rest) c) in *.
  set (keyp := match key with None => String c rest | Some k => k end).
  destruct (sends_calls provider region
              (dir_requests guess_type fs bucket_name root keyp) w)
    as (evs & Ht & Hp).
  exists evs. split; [exact Ht|].
  assert (Hpaths : OsPath.walk_paths fs root = OsPath.node_paths root n).
  { rewrite walk_paths_node. now rewrite Hres. }
  pose proof (node_paths_NoDup n Hwf Hun root) as Hnd.
  pose proof (node_paths_shape n Hwf root) as Hshape.
  unfold dir_requests in Hp. rewrite Hpaths in Hp.
  split; [|split].
  - apply (proj1 (Forall_map fst (fun c1 : call => exists f b k x,
                                    req c1 = UploadFile f b k x) evs)).
    eapply Forall_prefix; [exact Hp|].
    rewrite !Forall_map. apply Forall_forall. intros path _. simpl.
    unfold dir_request. now do 4 eexists.
  - assert (Hmm : map (fun ev : event => request_filename (req (fst ev))) evs
                  = map (fun c1 : call => request_filename (req c1)) (map fst evs))
      by (symmetry; apply map_map).
    rewrite Hmm. eapply NoDup_prefix; [apply prefix_map, Hp|].
    rewrite !map_map. simpl. apply NoDup_map_on; [|exact Hnd].
    now intros x y _ _ [= ->].
  - assert (Hmm : map (fun ev : event => request_key (req (fst ev))) evs
                  = map (fun c1 : call => request_key (req c1)) (map fst evs))
      by (symmetry; apply map_map).
    rewrite Hmm. eapply NoDup_prefix; [apply prefix_map, Hp|].
    rewrite !map_map. simpl. apply NoDup_map_on; [|exact Hnd].
    rewrite Forall_forall in Hshape.
    intros x y Hx Hy.
    destruct (Hshape x (proj2 (list_elem_of_In _ _) Hx)) as (t & -> & _).
    destruct (Hshape y (proj2 (list_elem_of_In _ _) Hy)) as (t' & -> & _).
    rewrite !replace1_prefix. intros [= E]. now apply append_cancel in E as ->.
Qed.

(** X6.  When the provider accepts every upload, [upload_dir] returns
    [True] after exactly one upload for each entry below the directory
    that is not a directory itself, special files included; nothing is
    logged. *)
Theorem upload_dir_uploads_every_file (bucket_name dirpath : string) (c0 : ascii)
    (region key : option string) (w : world) (n : OsPath.node) :
  PyStr.first_char dirpath = Some c0 ->
  OsPath.resolve fs (absolute fs dirpath c0) = Some n ->
  accepts provider region (trace w)
    (dir_requests guess_type fs bucket_name (absolute fs dirpath c0)
       (match key with None => dirpath | Some k => k end)) = true ->
  exists evs : list event,
    upload_dir guess_type provider fs bucket_name dirpath region key w
    = (Return true, mkWorld (trace w ++ evs) (log w))
    /\ length evs = OsPath.count_files n
    /\ Forall (fun ev : event => snd ev = None) evs.
Proof.
  intros Hc Hres Hacc. destruct dirpath as [|c rest]; [discriminate|].
  injection Hc as <-.
  rewrite upload_dir_body by exact (resolve_no_nul fs _ _ Hres).
  set (root := absolute fs (String c rest) c) in *.
  set (keyp := match key with None => String c rest | Some k => k end) in *.
  exists (oks region (dir_requests guess_type fs bucket_name root keyp)).
  split; [|split].
  - apply try_returned. destruct w as [tr lg]. now apply sends_accepted.
  - unfold oks, dir_requests. rewrite !length_map, walk_paths_node, Hres.
    apply node_paths_length.
  - unfold oks. apply Forall_map. now apply Forall_forall.
Qed.

(** X7.  [set_bucket_web_config] sends the CORS request, then the policy,
    then the website configuration, each only if the one before went
    through: at the first [ClientError] it logs the error and returns
    [False], and the requests after the refused one are never sent. *)
Theorem set_bucket_web_config_stops_at_first_error (bucket_name : string)
    (region index_doc error_doc : option string) (cors public : bool) (w : world)
    (k : nat) (r : request) (msg : string) :
  web_requests bucket_name index_doc error_doc cors public !! k = Some r ->
  accepts provider region (trace w)
    (take k (web_requests bucket_name index_doc error_doc cors public)) = true ->
  provider
    (trace w ++ oks region (take k (web_requests bucket_name index_doc error_doc
                                      cors public)))
    (mkCall region r) = Some (ClientError msg) ->
  set_bucket_web_config provider bucket_name region index_doc error_doc cors public w
  = (Return false,
     mkWorld (trace w
              ++ oks region (take k (web_requests bucket_name index_doc error_doc
                                       cors public))
              ++ [(mkCall region r, Some (ClientError msg))])
             (log w ++ [msg])).
Proof.
  intros Hk Hacc Hfail. rewrite web_config_body. destruct w as [tr lg].
  erewrite try_caught by (eapply sends_refused; eassumption).
  reflexivity.
Qed.

(** X8.  With [cors] and [public] set and every request accepted,
    [set_bucket_web_config] returns [True] after three calls in this
    order: the CORS rules, the public-read policy for the objects of the
    bucket, and the website configuration, whose documents are those given
    or else [index.html] and [error.html]. *)
Theorem set_bucket_web_config_all_accepted (bucket_name : string)
    (region index_doc error_doc : option string) (w : world) :
  (forall tr c, provider tr c = None) ->
  set_bucket_web_config provider bucket_name region index_doc error_doc true true w
  = (Return true,
     mkWorld
       (trace w
        ++ [ (mkCall region (PutBucketCors bucket_name cors_configuration), None);
             (mkCall region
                (PutBucketPolicy bucket_name
                   (mkPolicy "2012-10-17"
                      [ mkStatement "PublicReadGetObject" "Allow" "*" ["s3:GetObject"]
                          ["arn:aws:s3:::" +:+ bucket_name +:+ "/*"] ])), None);
             (mkCall region
                (PutBucketWebsite bucket_name
                   (default "error.html" error_doc)
                   (default "index.html" index_doc)), None) ])
       (log w)).
Proof.
  intros Hp. rewrite web_config_body. destruct w as [tr lg].
  apply try_returned. rewrite sends_accepted by now apply accepts_all.
  now destruct index_doc, error_doc.
Qed.

(** X9.  Without [public], [set_bucket_web_config] sends neither a policy
    nor a website configuration, whatever documents it is given: the only
    call it can make is the CORS request, at most once. *)
Theorem set_bucket_web_config_private (bucket_name : string)
    (region index_doc error_doc : option string) (cors : bool) (w : world) :
  exists evs : list event,
    trace (snd (set_bucket_web_config provider bucket_name region
                  index_doc error_doc cors false w))
    = trace w ++ evs
    /\ length evs <= 1
    /\ Forall (fun ev : event =>
                 fst ev = mkCall region (PutBucketCors bucket_name cors_configuration))
              evs.
Proof.
  rewrite web_config_body, try_trace.
  destruct (sends_calls provider region
              (web_requests bucket_name index_doc error_doc cors false) w)
    as (evs & Ht & Hp).
  exists evs. split; [exact Ht|].
  assert (Hlen : length evs <= 1).
  { pose proof (prefix_length _ _ Hp) as Hl. rewrite !length_map in Hl.
    etransitivity; [exact Hl|]. destruct cors; simpl; lia. }
  split; [exact Hlen|].
  apply (proj1 (Forall_map fst (fun c1 : call =>
                  c1 = mkCall region (PutBucketCors bucket_name cors_configuration)) evs)).
  eapply Forall_prefix; [exact Hp|].
  destruct cors; simpl; repeat constructor.
Qed.

(** X10.  An exception of another class than [ClientError] is not
    handled: if the first refusal, at position [k], raises such an
    exception, [upload_dir] raises it; nothing is logged, and the [k]
    uploads before it stay on the trace. *)
Theorem upload_dir_other_exception_escapes (bucket_name dirpath : string) (c0 : ascii)
    (region key : option string) (w : world) (k : nat) (r : request) (e : exn) :
  PyStr.first_char dirpath = Some c0 ->
  dir_requests guess_type fs bucket_name (absolute fs dirpath c0)
    (match key with None => dirpath | Some k0 => k0 end) !! k = Some r ->
  accepts provider region (trace w)
    (take k (dir_requests guess_type fs bucket_name (absolute fs dirpath c0)
               (match key with None => dirpath | Some k0 => k0 end))) = true ->
  provider
    (trace w
     ++ oks region
          (take k (dir_requests guess_type fs bucket_name (absolute fs dirpath c0)
                     (match key with None => dirpath | Some k0 => k0 end))))
    (mkCall region r) = Some e ->
  is_client_error e = false ->
  upload_dir guess_type provider fs bucket_name dirpath region key w
  = (Raise e,
     mkWorld (trace w
              ++ oks region
                   (take k (dir_requests guess_type fs bucket_name
                              (absolute fs dirpath c0)
                              (match key with None => dirpath | Some k0 => k0 end)))
              ++ [(mkCall region r, Some e)])
             (log w)).
Proof.
  intros Hc Hk Hacc Hfail He. destruct dirpath as [|c rest]; [discriminate|].
  injection Hc as <-.
  assert (Hnul : PyStr.has_nul (absolute fs (String c rest) c) = false).
  { destruct (PyStr.has_nul (absolute fs (String c rest) c)) eqn:E; [|reflexivity].
    unfold dir_requests in Hk. now rewrite (walk_paths_nul fs _ E) in Hk. }
  rewrite upload_dir_body by exact Hnul. destruct w as [tr lg].
  apply try_escapes; [|exact He].
  eapply sends_refused; eassumption.
Qed.

End Completeness.

(** ** The script as a whole *)

Section ScriptFacts.

Variable guess_type : string -> option string.
Variable provider : list event -> call -> option exn.
Variable fs : OsPath.filesystem.






End ScriptFacts.

(** ** More scenarios *)


Lemma upload_dir_key_shape_witness :
  exists evs : list event,
    trace (snd (upload_dir guess_common always_ok repo_fs "b" "../src/" None (Some "") w0))
    = trace w0 ++ evs
    /\ Forall (fun ev : event =>
                 exists t : string,
                   PyStr.startswith "/" t = false
                   /\ fst ev
                      = mkCall None
                          (UploadFile ("/repo/deployment/../src/" +:+ "" +:+ t) "b"
                             ("" +:+ "" +:+ t)
                             (extra_args_for guess_common
                                ("/repo/deployment/../src/" +:+ "" +:+ t))))
              evs.
Proof.
  exact (upload_dir_key_shape guess_common always_ok repo_fs "b" "../src/" "."
           None (Some "") w0 eq_refl eq_refl).
Defined.

Lemma upload_dir_empty_prefix_keys_witness :
  exists evs : list event,
    trace (snd (upload_dir guess_common always_ok repo_fs "b" "../src/" None (Some "") w0))
    = trace w0 ++ evs
    /\ Forall (fun ev : event =>
                 exists k, request_key (req (fst ev)) = Some k
                           /\ PyStr.startswith "/" k = false)
              evs.
Proof.
  exact (upload_dir_empty_prefix_keys guess_common always_ok repo_fs "b" "../src/" "."
           None w0 eq_refl eq_refl).
Defined.

Lemma upload_dir_absolute_default_key_witness :
  exists evs : list event,
    trace (snd (upload_dir guess_common always_ok repo_fs "b" "/repo/src" None None w0))
    = trace w0 ++ evs
    /\ Forall (fun ev : event =>
                 exists path extra,
                   req (fst ev) = UploadFile path "b" path extra
                   /\ PyStr.startswith "/repo/src" path = true)
              evs.
Proof.
  exact (upload_dir_absolute_default_key guess_common always_ok repo_fs "b" "/repo/src"
           None w0 eq_refl eq_refl).
Defined.


Lemma upload_dir_nul_character_witness :
  upload_dir guess_common always_ok repo_fs "b" nul_path None None w0
  = (Raise (OtherError "ValueError"), w0)
  /\ upload guess_common always_ok repo_fs "b" nul_path None None w0
     = (Return false,
        mkWorld [] ["Error: unsupported special file (socket, FIFO, device file)"]).
Proof.
  exact (upload_dir_nul_character guess_common always_ok repo_fs "b" nul_path "a"%char
           None None w0 eq_refl eq_refl).
Defined.

Lemma upload_dir_no_file_twice_witness :
  exists evs : list event,
    trace (snd (upload_dir guess_common always_ok repo_fs "b" "../src/" None (Some "") w0))
    = trace w0 ++ evs
    /\ Forall (fun ev : event => exists f b k x, req (fst ev) = UploadFile f b k x) evs
    /\ NoDup (map (fun ev : event => request_filename (req (fst ev))) evs)
    /\ NoDup (map (fun ev : event => request_key (req (fst ev))) evs).
Proof.
  exact (upload_dir_no_file_twice guess_common always_ok repo_fs "b" "../src/" "."
           None (Some "") w0 _ eq_refl eq_refl eq_refl eq_refl).
Defined.

Lemma upload_dir_uploads_every_file_witness :
  exists evs : list event,
    upload_dir guess_common always_ok repo_fs "b" "../src/" None (Some "") w0
    = (Return true, mkWorld ([] ++ evs) [])
    /\ length evs = 3
    /\ Forall (fun ev : event => snd ev = None) evs.
Proof.
  exact (upload_dir_uploads_every_file guess_common always_ok repo_fs "b" "../src/" "."
           None (Some "") w0 _ eq_refl eq_refl eq_refl).
Defined.

Lemma set_bucket_web_config_stops_at_first_error_witness :
  set_bucket_web_config denies_policy "b" None (Some "chat.html") None true true w0
  = (Return false,
     mkWorld [ (mkCall None (PutBucketCors "b" cors_configuration), None);
               (mkCall None (PutBucketPolicy "b" (public_read_policy "b")),
                Some (ClientError "AccessDenied")) ]
             ["AccessDenied"]).
Proof.
  exact (set_bucket_web_config_stops_at_first_error denies_policy "b" None
           (Some "chat.html") None true true w0 1 _ "AccessDenied"
           eq_refl eq_refl eq_refl).
Defined.

Lemma set_bucket_web_config_all_accepted_witness :
  set_bucket_web_config always_ok "b" None (Some "chat.html") None true true w0
  = (Return true,
     mkWorld [ (mkCall None (PutBucketCors "b" cors_configuration), None);
               (mkCall None (PutBucketPolicy "b" (public_read_policy "b")), None);
               (mkCall None (PutBucketWebsite "b" "error.html" "chat.html"), None) ]
             []).
Proof.
  exact (set_bucket_web_config_all_accepted always_ok "b" None (Some "chat.html") None w0
           (fun _ _ => eq_refl)).
Defined.

Lemma upload_dir_other_exception_escapes_witness :
  upload_dir guess_common always_other home_fs "b" "site" None None w0
  = (Raise (OtherError "EndpointConnectionError"),
     mkWorld [ (mkCall None (UploadFile "/home/user/site/index.html" "b" "site/index.html"
                               [("ContentType", "text/html")]),
                Some (OtherError "EndpointConnectionError")) ]
             []).
Proof.
  exact (upload_dir_other_exception_escapes guess_common always_other home_fs "b" "site" "s"
           None None w0 0 _ (OtherError "EndpointConnectionError")
           eq_refl eq_refl eq_refl eq_refl eq_refl).
Defined.


(** The script on the checkout, with a service that refuses to create the
    bucket: the two pages and the special file are uploaded under relative
    keys, and the bucket is configured. *)
Example script_after_refused_creation :
  script guess_common denies_create repo_fs w0
  = (Return tt,
     mkWorld
       [ (mkCall None (CreateBucket bucket_name None),
          Some (ClientError "BucketAlreadyExists"));
         (mkCall None (UploadFile "/repo/deployment/../src/chat.html" bucket_name
                         "chat.html" [("ContentType", "text/html")]), None);
         (mkCall None (UploadFile "/repo/deployment/../src/assets/chat.css" bucket_name
                         "assets/chat.css" [("ContentType", "text/css")]), None);
         (mkCall None (UploadFile "/repo/deployment/../src/assets/queue" bucket_name
                         "assets/queue" []), None);
         (mkCall None (PutBucketCors bucket_name cors_configuration), None);
         (mkCall None (PutBucketPolicy bucket_name (public_read_policy bucket_name)), None);
         (mkCall None (PutBucketWebsite bucket_name "error.html" "chat.html"), None) ]
       ["BucketAlreadyExists"]).
Proof. reflexivity. Qed.

(** X12.  Through [upload], the empty path never reaches the index access
    of [upload_dir]: it is neither a file nor a directory, so [upload]
    logs the error and returns [False], on every file system and with
    every provider. *)
Theorem upload_empty_path (guess_type : string -> option string)
    (provider : list event -> call -> option exn) (fs : OsPath.filesystem)
    (bucket_name : string) (region key : option string) (w : world) :
  upload guess_type provider fs bucket_name "" region key w
  = (Return false,
     mkWorld (trace w)
       (log w ++ ["Error: unsupported special file (socket, FIFO, device file)"])).
Proof. reflexivity. Qed.
